(** * The forked-EVM test helper ([helper/rpcserver.py]) in Rocq

    A shallow embedding of the helper's workflows: [ensuregas],
    [tryRegisterName], [getNameOwner], [getname], [sendmove],
    [validatecharacterstate] and [syncgsp].

    - Python values are the JSON-decoded values that reach the helper over
      JSON-RPC or come back from the GSP: [None], booleans, integers,
      floats, strings, lists and string-keyed dicts.  A float is kept as
      the exact rational it denotes (no NaN or infinities); its textual
      form is left to the [FloatRepr] interface.  A [str] is a Rocq
      [string], one [ascii] per character, which covers the code points
      below 256.
    - A Python exception is a value [exn] (class name and message); code
      that can raise returns [exn + A].
    - The chain node, the registry contracts and the GSP are reached
      through the capability interface [World]; every capability call is
      recorded, with its outcome, in a log that the theorems inspect.
      Namespaces, names and addresses are [string]s: the helper hands
      them to the contracts as they come.
    - A [return result] inside a [try] block is the other branch of an
      [if]; the [while True] loop of [syncgsp] runs for a given number of
      polls (fuel), and the theorems say how many are enough.
      [time.time ()] reads the world's clock, in seconds, as a rational. *)

From Stdlib Require Import ZArith QArith Qround String Ascii List Lia Lqa.
From stdpp Require Import base gmap strings pretty list.

Set Warnings "-register-all".

Local Open Scope string_scope.
Local Open Scope Z_scope.

(** ** Python values and the builtin operations the helper uses *)

Module Py.

Inductive pyval :=
| PNone
| PBool (b : bool)
| PInt (z : Z)
| PFloat (q : Q)
| PStr (s : string)
| PList (l : list pyval)
| PDict (d : list (string * pyval)).

(** An instance of (a subclass of) [Exception]: [type (e).__name__] and
    [str (e)]. *)
Record exn := Exn { exn_type : string; exn_msg : string }.

Definition res (A : Type) : Type := exn + A.

(** [float.__repr__], which [str], [repr] and [json.dumps] all use. *)
Class FloatRepr := float_repr : Q -> string.

(** [type (v).__name__] *)
Definition type_name (v : pyval) : string :=
  match v with
  | PNone => "NoneType"
  | PBool _ => "bool"
  | PInt _ => "int"
  | PFloat _ => "float"
  | PStr _ => "str"
  | PList _ => "list"
  | PDict _ => "dict"
  end.

(** [bool (v)] *)
Definition truthy (v : pyval) : bool :=
  match v with
  | PNone => false
  | PBool b => b
  | PInt z => negb (z =? 0)
  | PFloat q => negb (Qeq_bool q 0)
  | PStr s => negb (bool_decide (s = ""))
  | PList l => negb (bool_decide (l = []))
  | PDict d => match d with [] => false | _ => true end
  end.

(** The number a value denotes; [bool] is a subclass of [int]. *)
Definition num_of (v : pyval) : option Q :=
  match v with
  | PBool b => Some (inject_Z (if b then 1 else 0))
  | PInt z => Some (inject_Z z)
  | PFloat q => Some q
  | _ => None
  end.

(** First entry under key [k] of a dict kept in insertion order. *)
Fixpoint assoc (k : string) (d : list (string * pyval)) : option pyval :=
  match d with
  | [] => None
  | (k', v) :: d' => if bool_decide (k' = k) then Some v else assoc k d'
  end.

(** [a == b] *)
Fixpoint py_eq (a b : pyval) : bool :=
  match a, b with
  | PNone, PNone => true
  | PStr s, PStr t => bool_decide (s = t)
  | PList l, PList m =>
      (fix go (l m : list pyval) : bool :=
         match l, m with
         | [], [] => true
         | x :: l', y :: m' => py_eq x y && go l' m'
         | _, _ => false
         end) l m
  | PDict d, PDict e =>
      (length d =? length e)%nat &&
      forallb (fun kx => match assoc (fst kx) e with
                         | Some y => py_eq (snd kx) y
                         | None => false
                         end) d
  | _, _ =>
      match num_of a, num_of b with
      | Some p, Some q => Qeq_bool p q
      | _, _ => false
      end
  end.

Definition not_supported (op : string) (a b : pyval) : exn :=
  Exn "TypeError"
      ("'" +:+ op +:+ "' not supported between instances of '" +:+
       type_name a +:+ "' and '" +:+ type_name b +:+ "'").

(** [a <= b] and [a > b] for a number [b] *)
Definition py_le (a b : pyval) : res bool :=
  match num_of a, num_of b with
  | Some p, Some q => inr (Qle_bool p q)
  | _, _ => inl (not_supported "<=" a b)
  end.

Definition py_gt (a b : pyval) : res bool :=
  match num_of a, num_of b with
  | Some p, Some q => inr (negb (Qle_bool p q))
  | _, _ => inl (not_supported ">" a b)
  end.

Definition no_attribute (v : pyval) (attr : string) : exn :=
  Exn "AttributeError"
      ("'" +:+ type_name v +:+ "' object has no attribute '" +:+ attr +:+ "'").

(** [v.get (k, default)]; only a dict has the method. *)
Definition py_get (v : pyval) (k : string) (default : pyval) : res pyval :=
  match v with
  | PDict d => inr (match assoc k d with Some x => x | None => default end)
  | _ => inl (no_attribute v "get")
  end.

(** [s[:n]] and [s[n:]] on a [str] *)
Fixpoint str_take (n : nat) (s : string) : string :=
  match n, s with
  | S n', String c s' => String c (str_take n' s')
  | _, _ => ""
  end.

Fixpoint str_drop (n : nat) (s : string) : string :=
  match n, s with
  | S n', String _ s' => str_drop n' s'
  | _, _ => s
  end.

Definition hex_digit (n : N) : ascii :=
  ascii_of_N (if (n <? 10)%N then 48 + n else 87 + n)%N.

(** The two lower-case hex digits of a character code. *)
Definition hex2 (c : ascii) : string :=
  let n := N_of_ascii c in
  String (hex_digit (n / 16)) (String (hex_digit (n mod 16)) "").

(** The double quote character, code 34. *)
Definition dquote : ascii := ascii_of_N 34.

Definition str_contains (c : ascii) (s : string) : bool :=
  existsb (fun x => bool_decide (x = c)) (list_ascii_of_string s).

Definition str_concat_map (f : ascii -> string) (s : string) : string :=
  String.concat "" (map f (list_ascii_of_string s)).

(** [repr] of a [str]: double quotes only when the text has a single and
    no double quote; backslash escapes for the quote, the backslash, tab,
    newline and carriage return; [\xNN] for the characters that are not
    printable. *)
Definition repr_quote (s : string) : ascii :=
  if str_contains "'" s && negb (str_contains dquote s) then dquote
  else "'"%char.

Definition repr_char (quote c : ascii) : string :=
  let n := N_of_ascii c in
  if bool_decide (c = quote) || bool_decide (c = "\"%char)
  then String "\" (String c "")
  else if (n =? 9)%N then "\t"
  else if (n =? 10)%N then "\n"
  else if (n =? 13)%N then "\r"
  else if (n <? 32)%N || ((127 <=? n)%N && (n <=? 160)%N) || (n =? 173)%N
  then "\x" +:+ hex2 c
  else String c "".

Definition repr_str (s : string) : string :=
  let q := repr_quote s in
  String q (str_concat_map (repr_char q) s) +:+ String q "".

Section WithFloatRepr.
Context `{FloatRepr}.

(** [repr (v)] *)
Fixpoint py_repr (v : pyval) : string :=
  match v with
  | PNone => "None"
  | PBool b => if b then "True" else "False"
  | PInt z => pretty z
  | PFloat q => float_repr q
  | PStr s => repr_str s
  | PList l => "[" +:+ String.concat ", " (map py_repr l) +:+ "]"
  | PDict d =>
      "{" +:+ String.concat ", "
                (map (fun kx => repr_str (fst kx) +:+ ": " +:+ py_repr (snd kx)) d)
          +:+ "}"
  end.

(** [str (v)], what the [%s] conversion prints. *)
Definition py_str (v : pyval) : string :=
  match v with
  | PStr s => s
  | _ => py_repr v
  end.

(** [int (q)]: truncation towards zero. *)
Definition Qtrunc (q : Q) : Z := Z.quot (Qnum q) (Zpos (Qden q)).

(** The [%d] conversion: a number is truncated towards zero, anything
    else is a [TypeError]. *)
Definition fmt_d (v : pyval) : res string :=
  match num_of v with
  | Some q => inr (pretty (Qtrunc q))
  | None => inl (Exn "TypeError"
                     ("%d format: a real number is required, not " +:+ type_name v))
  end.

(** One character of a JSON string under [ensure_ascii]. *)
Definition json_char (c : ascii) : string :=
  let n := N_of_ascii c in
  if bool_decide (c = dquote) then String "\" (String dquote "")
  else if bool_decide (c = "\"%char) then "\\"
  else if (n =? 10)%N then "\n"
  else if (n =? 13)%N then "\r"
  else if (n =? 9)%N then "\t"
  else if (n =? 8)%N then "\b"
  else if (n =? 12)%N then "\f"
  else if (n <? 32)%N || (126 <? n)%N then "\u00" +:+ hex2 c
  else String c "".

Definition json_str (s : string) : string :=
  String dquote (str_concat_map json_char s) +:+ String dquote "".

(** [json.dumps (v, separators=(",", ":"))] *)
Fixpoint json_dumps (v : pyval) : string :=
  match v with
  | PNone => "null"
  | PBool b => if b then "true" else "false"
  | PInt z => pretty z
  | PFloat q => float_repr q
  | PStr s => json_str s
  | PList l => "[" +:+ String.concat "," (map json_dumps l) +:+ "]"
  | PDict d =>
      "{" +:+ String.concat ","
                (map (fun kx => json_str (fst kx) +:+ ":" +:+ json_dumps (snd kx)) d)
          +:+ "}"
  end.

End WithFloatRepr.

End Py.

Import Py.

(** More builtins: subscripting with a [str] key, [in], iteration. *)

(** [v[k]] for a [str] key [k] *)
Definition py_getitem (v : pyval) (k : string) : res pyval :=
  match v with
  | PDict d => match assoc k d with
               | Some x => inr x
               | None => inl (Exn "KeyError" (repr_str k))
               end
  | PList _ => inl (Exn "TypeError" "list indices must be integers or slices, not str")
  | PStr _ => inl (Exn "TypeError" "string indices must be integers, not 'str'")
  | _ => inl (Exn "TypeError" ("'" +:+ type_name v +:+ "' object is not subscriptable"))
  end.

Fixpoint is_prefix (p s : string) : bool :=
  match p, s with
  | "", _ => true
  | String a p', String b s' => bool_decide (a = b) && is_prefix p' s'
  | _, _ => false
  end.

Fixpoint is_substring (p s : string) : bool :=
  is_prefix p s || match s with
                   | "" => false
                   | String _ s' => is_substring p s'
                   end.

(** [k in v] for a [str] [k] *)
Definition py_contains (k : string) (v : pyval) : res bool :=
  match v with
  | PDict d => inr (bool_decide (is_Some (assoc k d)))
  | PList l => inr (existsb (py_eq (PStr k)) l)
  | PStr s => inr (is_substring k s)
  | _ => inl (Exn "TypeError"
                  ("argument of type '" +:+ type_name v +:+ "' is not iterable"))
  end.

(** The items a [for] loop over [v] visits. *)
Definition py_iter (v : pyval) : res (list pyval) :=
  match v with
  | PList l => inr l
  | PDict d => inr (map (fun kx => PStr (fst kx)) d)
  | PStr s => inr (map (fun c => PStr (String c "")) (list_ascii_of_string s))
  | _ => inl (Exn "TypeError" ("'" +:+ type_name v +:+ "' object is not iterable"))
  end.

(** ** The capabilities *)

(** [HexBytes], as [web3] returns for hashes; [hex] is its [.hex ()]. *)
Record HexBytes := { hex : string }.

(** The remote calls the helper makes, each with the type of its answer:
    the chain node ([eth], [w3.eth]), a token contract, the accounts
    contract ([accounts.functions...]; a trailing address is the
    [{"from": ...}] of [transact]) and the GSP. *)
Inductive Call : Type -> Type :=
| evm_mine (timestamp : option Z) : Call unit
| anvil_setBalance (addr : string) (wei : Z) : Call unit
| get_balance (addr : string) : Call Z
| get_block_latest_hash : Call HexBytes
| erc20_transfer (token receiver : string) (amount : Z) (from : string) : Call HexBytes
| wchi_approve (spender : string) (amount : Z) (from : string) : Call HexBytes
| accounts_exists (ns name : string) : Call bool
| accounts_register (ns name : string) (from : string) : Call HexBytes
| accounts_tokenIdForName (ns name : string) : Call Z
| accounts_ownerOf (tokenId : Z) : Call string
| accounts_transferFrom (owner receiver : string) (tokenId : Z) (from : string)
    : Call HexBytes
| accounts_move (ns name mv : string) (nonce amount : Z) (receiver : string)
    (from : string) : Call HexBytes
| gsp_getcharacters : Call pyval
| gsp_getnullstate : Call pyval.

(** The calls that change the chain: mining, setting a balance, and every
    transaction.  The others only read. *)
Definition mutating {A} (c : Call A) : bool :=
  match c with
  | evm_mine _ | anvil_setBalance _ _ | erc20_transfer _ _ _ _
  | wchi_approve _ _ _ | accounts_register _ _ _
  | accounts_transferFrom _ _ _ _ | accounts_move _ _ _ _ _ _ _ => true
  | _ => false
  end.

(** What the helper runs against.  A call either answers or raises; the
    clock is read by [time.time ()] and moved by [time.sleep]. *)
Class World (W : Type) := {
  handle : forall A, Call A -> W -> res A * W;
  time_time : W -> Q;
  time_sleep : Q -> W -> W;
  accounts_address : string;
  world_float_repr :: FloatRepr
}.
Arguments handle {W _ A} c w.

(** One entry of the call log. *)
Inductive event :=
| Ev {A} (c : Call A) (r : res A)
| Sleep (d : Q).

Definition ev_mutating (e : event) : bool :=
  match e with
  | Ev c _ => mutating c
  | Sleep _ => false
  end.

Definition ev_faulted (e : event) : bool :=
  match e with
  | Ev _ (inl _) => true
  | _ => false
  end.

Section Helper.
Context {W : Type} `{World W}.

(** The state a workflow runs in: the outside world, the log of the calls
    made so far, and the workflow's local [result] dict. *)
Record state := State {
  world : W;
  log : list event;
  result : gmap string pyval
}.

(** A state with nothing logged yet. *)
Definition fresh (w : W) : state := State w [] ∅.

(** What was logged between two states of one run. *)
Definition events_since (s s' : state) : list event :=
  drop (length (log s)) (log s').

Definition M (A : Type) : Type := state -> res A * state.

#[global] Instance M_ret : MRet M := fun A a s => (inr a, s).
#[global] Instance M_bind : MBind M := fun A B f m s =>
  match m s with
  | (inr a, s') => f a s'
  | (inl e, s') => (inl e, s')
  end.

(** An expression that may raise. *)
Definition lift {A} (r : res A) : M A := fun s => (r, s).

(** A capability call, logged with its outcome. *)
Definition perform {A} (c : Call A) : M A := fun s =>
  let '(r, w) := handle c (world s) in
  (r, State w (log s ++ [Ev c r]) (result s)).

(** [time.time ()] and [time.sleep (d)] *)
Definition now : M Q := fun s => (inr (time_time (world s)), s).

Definition sleep (d : Q) : M unit := fun s =>
  (inr tt, State (time_sleep d (world s)) (log s ++ [Sleep d]) (result s)).

(** [result = {...}] and [result[k] = v] *)
Definition init (r : gmap string pyval) : M unit := fun s =>
  (inr tt, State (world s) (log s) r).

Definition set (k : string) (v : pyval) : M unit := fun s =>
  (inr tt, State (world s) (log s) (<[k := v]> (result s))).

(** [try: body / except Exception as e: result["error"] = str (e);
    result["errorType"] = type (e).__name__]: the exception, if any, ends
    here. *)
Definition try_except {A} (body : M A) : M (option A) := fun s =>
  match body s with
  | (inr a, s') => (inr (Some a), s')
  | (inl e, s') =>
      (set "error" (PStr (exn_msg e));;
       set "errorType" (PStr (exn_type e));;
       mret None) s'
  end.

(** A workflow: [result = r0], the guarded body, [return result] (also
    where the body returns [result] early). *)
Definition workflow {A} (r0 : gmap string pyval) (body : M A)
  : state -> gmap string pyval * state := fun s =>
  let s' := snd ((init r0;; try_except body) s) in
  (result s', s').

(** *** The chain helpers *)

Definition mineblock : M unit := perform (evm_mine None).

Definition mineblockat (timestamp : Z) : M unit :=
  perform (evm_mine (Some timestamp)).

Definition setbalance (addr : string) (wei : Z) : M unit :=
  perform (anvil_setBalance addr wei).

(** [w3.to_wei ("1", "ether")] *)
Definition minWei : Z := 10 ^ 18.

Definition ensuregas (addr : string) : M unit :=
  bal ← perform (get_balance addr);
  if bal <? minWei then setbalance addr minWei else mret tt.

Definition transfertoken (token sender receiver : string) (amount : Z) : M unit :=
  ensuregas sender;;
  perform (erc20_transfer token receiver amount sender);;
  mineblock.

Definition uint256_max : Z := 2 ^ 256 - 1.

Definition tryRegisterName (ns name receiver : string) : M bool :=
  ex ← perform (accounts_exists ns name);
  if ex : bool then mret false
  else
    ensuregas receiver;;
    perform (wchi_approve accounts_address uint256_max receiver);;
    mineblock;;
    perform (accounts_register ns name receiver);;
    mineblock;;
    mret true.

Definition getNameOwner (ns name : string) : M (string * Z) :=
  tokenId ← perform (accounts_tokenIdForName ns name);
  owner ← perform (accounts_ownerOf tokenId);
  mret (owner, tokenId).

(** *** getname *)

Definition getname_init (ns name receiver : string) : gmap string pyval :=
  <["receiver" := PStr receiver]>
    (<["name" := PStr name]> (<["ns" := PStr ns]> {["success" := PBool false]})).

Definition getname_try (ns name receiver : string) : M unit :=
  registered ← tryRegisterName ns name receiver;
  if registered : bool then
    set "success" (PBool true);;
    set "action" (PStr "registered");;
    set "owner" (PStr receiver)
  else
    '(owner, tokenId) ← getNameOwner ns name;
    set "previousOwner" (PStr owner);;
    set "tokenId" (PInt tokenId);;
    ensuregas owner;;
    perform (accounts_transferFrom owner receiver tokenId owner);;
    mineblock;;
    set "success" (PBool true);;
    set "action" (PStr "transferred");;
    set "owner" (PStr receiver).

Definition getname (ns name receiver : string)
  : state -> gmap string pyval * state :=
  workflow (getname_init ns name receiver) (getname_try ns name receiver).

(** *** sendmove *)

(** The move as the string that is sent: a [str] as it is, anything else
    as compact JSON. *)
Definition move_string (mv : pyval) : string :=
  match mv with
  | PStr s => s
  | _ => json_dumps mv
  end.

Definition null_address : string :=
  "0x" +:+ String.concat "" (replicate 20 "00").

Definition sendmove_init (ns name : string) : gmap string pyval :=
  <["name" := PStr name]> (<["ns" := PStr ns]> {["success" := PBool false]}).

Definition sendmove_try (ns name : string) (mv : pyval) : M unit :=
  let mv := move_string mv in
  set "moveData" (PStr (str_take 500 mv));;
  ex ← perform (accounts_exists ns name);
  if negb ex then
    set "error" (PStr ("name " +:+ ns +:+ "/" +:+ name +:+ " does not exist yet"))
  else
    '(owner, tokenId) ← getNameOwner ns name;
    set "owner" (PStr owner);;
    set "tokenId" (PInt tokenId);;
    ensuregas owner;;
    tx ← perform (accounts_move ns name mv uint256_max 0 null_address owner);
    set "txHash" (PStr (hex tx));;
    mineblock;;
    set "success" (PBool true);;
    set "message" (PStr "Move submitted successfully").

Definition sendmove (ns name : string) (mv : pyval)
  : state -> gmap string pyval * state :=
  workflow (sendmove_init ns name) (sendmove_try ns name mv).

(** *** validatecharacterstate *)

Definition is_none (v : pyval) : bool :=
  match v with PNone => true | _ => false end.

(** The search loop: [character] stays [None] unless some [c] has
    [c.get ("id") == characterId]; the first such [c] ends the loop. *)
Fixpoint find_character (charData : list pyval) (characterId : pyval)
  : res pyval :=
  match charData with
  | [] => inr PNone
  | c :: rest =>
      match py_get c "id" PNone with
      | inl e => inl e
      | inr i => if py_eq i characterId then inr c
                 else find_character rest characterId
      end
  end.

Definition validate_init (characterId action : pyval) : gmap string pyval :=
  <["action" := action]>
    (<["characterId" := characterId]> {["valid" := PBool false]}).

(** The tail every accepted action shares. *)
Definition validate_accept (action : pyval) : M unit :=
  set "valid" (PBool true);;
  set "message" (PStr ("Character can perform " +:+ py_str action +:+ " action")).

Definition validate_move (character action : pyval) : M unit :=
  inb ← lift (py_get character "inbuilding" PNone);
  if negb (is_none inb) then
    inb ← lift (py_get character "inbuilding" PNone);
    set "error" (PStr ("Character is inside a building (id=" +:+ py_str inb
                       +:+ "). Must exit first."))
  else
    speed ← lift (py_get character "speed" (PInt 0));
    slow ← lift (py_le speed (PInt 0));
    if slow : bool then
      d ← lift (fmt_d speed);
      set "error" (PStr ("Character has no movement speed (speed=" +:+ d +:+ ")"))
    else
      has ← lift (py_contains "ongoing" character);
      busy ← (if has : bool
              then o ← lift (py_getitem character "ongoing"); mret (truthy o)
              else mret false);
      if busy : bool then
        set "error" (PStr "Character is busy with ongoing operation")
      else
        m ← lift (py_get character "movement" PNone);
        moving ← (if truthy m
                  then m ← lift (py_getitem character "movement");
                       ps ← lift (py_get m "partialstep" (PInt 0));
                       lift (py_gt ps (PInt 0))
                  else mret false);
        (if moving : bool
         then set "warning"
                (PStr "Character is already moving, new waypoints will replace current path")
         else mret tt);;
        validate_accept action.

Definition validate_try (characterId action : pyval) : M unit :=
  chars ← perform gsp_getcharacters;
  charData ← lift (py_get chars "data" (PList []));
  items ← lift (py_iter charData);
  character ← lift (find_character items characterId);
  if is_none character then
    d ← lift (fmt_d characterId);
    set "error" (PStr ("Character " +:+ d +:+ " not found"))
  else
    id ← lift (py_get character "id" PNone);
    owner ← lift (py_get character "owner" PNone);
    pos ← lift (py_get character "pos" PNone);
    speed ← lift (py_get character "speed" (PInt 0));
    inbuilding ← lift (py_get character "inbuilding" PNone);
    faction ← lift (py_get character "faction" PNone);
    set "character"
      (PDict [("id", id); ("owner", owner); ("pos", pos); ("speed", speed);
              ("inbuilding", inbuilding); ("faction", faction)]);;
    if py_eq action (PStr "move") then validate_move character action
    else validate_accept action.

Definition validatecharacterstate (characterId action : pyval)
  : state -> gmap string pyval * state :=
  workflow (validate_init characterId action) (validate_try characterId action).

(** *** syncgsp *)

Definition maxWait : Z := 30.

(** [round (x, 3)]: to the nearest thousandth, a tie to the even one. *)
Definition round3 (x : Q) : Q :=
  let y := (x * 1000)%Q in
  let f := Qfloor y in
  let d := (y - inject_Z f)%Q in
  let n := if Qle_bool d (1 # 2)
           then if Qeq_bool d (1 # 2) && Z.odd f then f + 1 else f
           else f + 1 in
  (n # 1000)%Q.

(** The loop's exit test:
    [state["state"] == "up-to-date" and state["blockhash"] == blk]. *)
Definition is_synced (st : pyval) (blk : string) : res bool :=
  match py_getitem st "state" with
  | inl e => inl e
  | inr tag =>
      if py_eq tag (PStr "up-to-date")
      then match py_getitem st "blockhash" with
           | inl e => inl e
           | inr bh => inr (py_eq bh (PStr blk))
           end
      else inr false
  end.

(** The [while True] loop, at most [fuel] polls of it.  [Some true]: left
    by [break]; [Some false]: left by the [return result] of the timeout;
    [None]: still running after [fuel] polls. *)
Fixpoint sync_loop (fuel : nat) (blk : string) (startTime : Q) : M (option bool) :=
  match fuel with
  | O => mret None
  | S fuel' =>
      st ← perform gsp_getnullstate;
      synced ← lift (is_synced st blk);
      if synced : bool then mret (Some true)
      else
        t ← now;
        if negb (Qle_bool (t - startTime) (inject_Z maxWait)) then
          set "error" (PStr ("Timeout waiting for GSP sync after "
                             +:+ pretty maxWait +:+ " seconds"));;
          tag ← lift (py_getitem st "state");
          set "lastState" tag;;
          bh ← lift (py_get st "blockhash" (PStr "unknown"));
          set "lastBlock" bh;;
          mret (Some false)
        else
          sleep (1 # 10);;
          sync_loop fuel' blk startTime
  end.

(** The head hash without a leading "0x". *)
Definition strip_0x (blk : string) : string :=
  if bool_decide (str_take 2 blk = "0x") then str_drop 2 blk else blk.

Definition syncgsp_init : gmap string pyval := {["success" := PBool false]}.

(** The guarded body; [false] when the loop is still running after [fuel]
    polls. *)
Definition syncgsp_try (fuel : nat) : M bool :=
  startTime ← now;
  h ← perform get_block_latest_hash;
  let blk := strip_0x (hex h) in
  if negb (String.length blk =? 64)%nat then lift (inl (Exn "AssertionError" ""))
  else
    set "targetBlock" (PStr blk);;
    r ← sync_loop fuel blk startTime;
    match r with
    | None => mret false
    | Some false => mret true
    | Some true =>
        set "success" (PBool true);;
        set "blockhash" (PStr blk);;
        t ← now;
        set "waitTime" (PFloat (round3 (t - startTime)));;
        mret true
    end.

(** [syncgsp], given [fuel] polls: [None] when it has not returned by
    then. *)
Definition syncgsp (fuel : nat) : state -> option (gmap string pyval) * state :=
  fun s =>
  match (init syncgsp_init;; try_except (syncgsp_try fuel)) s with
  | (inr (Some false), s') => (None, s')
  | (_, s') => (Some (result s'), s')
  end.

End Helper.

Arguments state W : clear implicits.
Arguments M W A : clear implicits.
Arguments str_take : simpl never.
Arguments str_drop : simpl never.

(** A field of an answer that may not have come yet. *)
Definition answer_field (o : option (gmap string pyval)) (k : string)
  : option pyval :=
  match o with
  | Some r => r !! k
  | None => None
  end.

(** ** A simulated world

    A small chain, registry and GSP to run the workflows on: names with
    owner and token id, balances, a head block hash, a clock, the GSP's
    character list and its successive sync states.  Every call that is
    answered takes [latency] seconds; after [budget] calls the connection
    drops and every further call raises. *)

Module Sim.

Record sim := {
  names : list (string * string * (string * Z));
  balances : list (string * Z);
  head : string;
  clock : Q;
  characters : pyval;
  nullstates : list pyval;
  latency : N;
  budget : option nat
}.

Definition with_names n (w : sim) : sim :=
  {| names := n; balances := balances w; head := head w; clock := clock w;
     characters := characters w; nullstates := nullstates w;
     latency := latency w; budget := budget w |}.

Definition with_balances b (w : sim) : sim :=
  {| names := names w; balances := b; head := head w; clock := clock w;
     characters := characters w; nullstates := nullstates w;
     latency := latency w; budget := budget w |}.

Definition with_clock c (w : sim) : sim :=
  {| names := names w; balances := balances w; head := head w; clock := c;
     characters := characters w; nullstates := nullstates w;
     latency := latency w; budget := budget w |}.

Definition with_nullstates l (w : sim) : sim :=
  {| names := names w; balances := balances w; head := head w; clock := clock w;
     characters := characters w; nullstates := l;
     latency := latency w; budget := budget w |}.

Definition with_head h (w : sim) : sim :=
  {| names := names w; balances := balances w; head := h; clock := clock w;
     characters := characters w; nullstates := nullstates w;
     latency := latency w; budget := budget w |}.

Definition with_latency n (w : sim) : sim :=
  {| names := names w; balances := balances w; head := head w; clock := clock w;
     characters := characters w; nullstates := nullstates w;
     latency := n; budget := budget w |}.

Definition with_characters c (w : sim) : sim :=
  {| names := names w; balances := balances w; head := head w; clock := clock w;
     characters := c; nullstates := nullstates w;
     latency := latency w; budget := budget w |}.

Definition with_budget b (w : sim) : sim :=
  {| names := names w; balances := balances w; head := head w; clock := clock w;
     characters := characters w; nullstates := nullstates w;
     latency := latency w; budget := b |}.

Fixpoint find_name (ns name : string) (l : list (string * string * (string * Z)))
  : option (string * Z) :=
  match l with
  | [] => None
  | (ns', name', v) :: l' =>
      if bool_decide (ns' = ns) && bool_decide (name' = name) then Some v
      else find_name ns name l'
  end.

Fixpoint find_token (tokenId : Z) (l : list (string * string * (string * Z)))
  : option string :=
  match l with
  | [] => None
  | (_, _, (owner, t)) :: l' =>
      if t =? tokenId then Some owner else find_token tokenId l'
  end.

Fixpoint set_owner (tokenId : Z) (owner : string)
    (l : list (string * string * (string * Z)))
  : list (string * string * (string * Z)) :=
  match l with
  | [] => []
  | (ns, name, (o, t)) :: l' =>
      if t =? tokenId then (ns, name, (owner, t)) :: l'
      else (ns, name, (o, t)) :: set_owner tokenId owner l'
  end.

Fixpoint balance_of (addr : string) (l : list (string * Z)) : Z :=
  match l with
  | [] => 0
  | (a, v) :: l' => if bool_decide (a = addr) then v else balance_of addr l'
  end.

Definition reverted (msg : string) : exn := Exn "ContractLogicError" msg.

Definition txhash : HexBytes := {| hex := "0x" +:+ String.concat "" (replicate 32 "ab") |}.

Definition answer {A} (c : Call A) (w : sim) : res A * sim :=
  match c in Call T return res T * sim with
  | evm_mine _ => (inr tt, w)
  | anvil_setBalance addr wei => (inr tt, with_balances ((addr, wei) :: balances w) w)
  | get_balance addr => (inr (balance_of addr (balances w)), w)
  | get_block_latest_hash => (inr {| hex := head w |}, w)
  | erc20_transfer _ _ _ _ => (inr txhash, w)
  | wchi_approve _ _ _ => (inr txhash, w)
  | accounts_exists ns name =>
      (inr (bool_decide (is_Some (find_name ns name (names w)))), w)
  | accounts_register ns name from =>
      match find_name ns name (names w) with
      | Some _ => (inl (reverted "name exists already"), w)
      | None =>
          (inr txhash,
           with_names (names w ++ [(ns, name, (from, Z.of_nat (length (names w)) + 1))]) w)
      end
  | accounts_tokenIdForName ns name =>
      (inr (match find_name ns name (names w) with Some (_, t) => t | None => 0 end), w)
  | accounts_ownerOf tokenId =>
      match find_token tokenId (names w) with
      | Some owner => (inr owner, w)
      | None => (inl (reverted "invalid token ID"), w)
      end
  | accounts_transferFrom owner receiver tokenId from =>
      match find_token tokenId (names w) with
      | Some o =>
          if bool_decide (o = owner) && bool_decide (from = owner)
          then (inr txhash, with_names (set_owner tokenId receiver (names w)) w)
          else (inl (reverted "caller is not token owner or approved"), w)
      | None => (inl (reverted "invalid token ID"), w)
      end
  | accounts_move _ _ _ _ _ _ _ => (inr txhash, w)
  | gsp_getcharacters => (inr (characters w), w)
  | gsp_getnullstate =>
      match nullstates w with
      | st :: (_ :: _) as rest => (inr st, with_nullstates rest w)
      | [st] => (inr st, w)
      | [] => (inr PNone, w)
      end
  end.

(** An answered call moves the clock on by [latency]. *)
Definition served {A} (c : Call A) (w : sim) : res A * sim :=
  let '(r, w') := answer c w in
  (r, with_clock (clock w' + inject_Z (Z.of_N (latency w')))%Q w').

Definition sim_handle A (c : Call A) (w : sim) : res A * sim :=
  match budget w with
  | Some O => (inl (Exn "ConnectionError" "connection refused"), w)
  | Some (S n) => served c (with_budget (Some n) w)
  | None => served c w
  end.

#[global] Instance sim_world : World sim := {|
  handle := sim_handle;
  time_time := clock;
  time_sleep d w := with_clock (clock w + d)%Q w;
  accounts_address := "0x8C12253F71091b9582908C8a44F78870Ec6F304F";
  world_float_repr q := pretty (Qfloor q) +:+ ".?"
|}.

Definition hash64 : string := String.concat "" (replicate 32 "5e").

Definition synced_state : pyval :=
  PDict [("state", PStr "up-to-date"); ("blockhash", PStr hash64)].

Definition catching_up : pyval :=
  PDict [("state", PStr "catching-up"); ("blockhash", PStr hash64)].

(** Three entities as the GSP reports them: one that cannot move, one
    inside a building, one under way. *)
Definition char5 : pyval :=
  PDict [("id", PInt 5); ("owner", PStr "alice"); ("speed", PInt 0)].

Definition char7 : pyval :=
  PDict [("id", PInt 7); ("owner", PStr "alice"); ("speed", PInt 5);
         ("inbuilding", PStr "building-3")].

Definition char9 : pyval :=
  PDict [("id", PInt 9); ("owner", PStr "bob"); ("speed", PInt 3000);
         ("movement", PDict [("partialstep", PInt 750)])].

(** A chain with one name, [p/alice], and a GSP that knows the three
    entities and reports the head as processed on the second poll. *)
Definition w0 : sim := {|
  names := [("p", "alice", ("0xA11CE", 1))];
  balances := [("0xA11CE", 5 * 10 ^ 18)];
  head := "0x" +:+ hash64;
  clock := 1700000000 # 1;
  characters := PDict [("data", PList [char5; char7; char9])];
  nullstates := [catching_up; synced_state];
  latency := 0;
  budget := None
|}.

(** The same world with a head hash that is too short, with a slow GSP
    that never catches up, and with the connection down. *)
Definition w_short : sim := with_head "0xabcd" w0.
Definition w_stuck : sim := with_latency 20 (with_nullstates [catching_up] w0).
Definition w_down : sim := with_budget (Some O) w0.

(** The connection drops after four calls; the GSP answers with a list
    instead of a dict; its sync state lacks the "state" key; it is in
    sync from the start, on a chain whose calls take a minute each. *)
Definition w_drops : sim := with_budget (Some 4%nat) w0.
Definition w_list : sim := with_characters (PList []) w0.
Definition w_nokey : sim := with_nullstates [PDict [("blockhash", PStr hash64)]] w0.
Definition w_slow : sim := with_latency 60 (with_nullstates [synced_state] w0).

(** A chain and a GSP whose calls take 12 seconds each; and a GSP that
    never catches up, behind a connection that drops after two calls. *)
Definition w_late : sim := with_latency 12 w0.
Definition w_cut : sim := with_budget (Some 2%nat) (with_nullstates [catching_up] w0).

(** An entity that can move and is not under way, and one whose speed
    is not a number. *)
Definition char3 : pyval :=
  PDict [("id", PInt 3); ("owner", PStr "carol"); ("speed", PInt 2);
         ("ongoing", PNone); ("movement", PDict [("partialstep", PInt 0)])].

Definition char4 : pyval :=
  PDict [("id", PInt 4); ("owner", PStr "carol"); ("speed", PStr "fast")].

Definition w_more : sim :=
  with_characters (PDict [("data", PList [char3; char4])]) w0.

(** A structured move whose compact JSON is 601 characters long. *)
Definition long_move : pyval := PList (replicate 300 (PInt 7)).

End Sim.

(** ** Reasoning about runs *)

Section Runs.
Context {W : Type} `{World W}.
Implicit Types (s : state W) (e : exn) (evs : list event).

(** [wp m Q s]: the run of [m] from [s] ends with an outcome and in a
    state that satisfy [Q]. *)
Definition wp {A} (m : M W A) (Q : res A -> state W -> Prop) s : Prop :=
  Q (m s).1 (m s).2.

(** The exception a logged call raised, and the payload of a logged
    [move] transaction. *)
Definition ev_exn (ev : event) : option exn :=
  match ev with
  | Ev _ (inl e) => Some e
  | _ => None
  end.


(** The calls [ensuregas addr] makes when nothing fails: the balance is
    read, and set to [minWei] exactly when it was below. *)
Definition gas_ensured (addr : string) evs : Prop :=
  exists bal,
    (minWei <= bal /\ evs = [Ev (get_balance addr) (inr bal)]) \/
    (bal < minWei /\
     evs = [Ev (get_balance addr) (inr bal);
            Ev (anvil_setBalance addr minWei) (inr tt)]).

(** What [getname] answers after a registration and after a transfer. *)
Definition registered_result (ns name receiver : string) : gmap string pyval :=
  <["owner" := PStr receiver]>
    (<["action" := PStr "registered"]>
       (<["success" := PBool true]> (getname_init ns name receiver))).

Definition transferred_result (ns name receiver prev : string) (tokenId : Z)
  : gmap string pyval :=
  <["owner" := PStr receiver]>
    (<["action" := PStr "transferred"]>
       (<["success" := PBool true]>
          (<["tokenId" := PInt tokenId]>
             (<["previousOwner" := PStr prev]> (getname_init ns name receiver))))).

(** The GSP's answer [chars] lists entity dicts under "data", and [c] is
    the first of them whose "id" equals [cid]. *)
Definition is_dict (v : pyval) : bool :=
  match v with PDict _ => true | _ => false end.

Definition has_id (cid c : pyval) : bool :=
  match py_get c "id" PNone with
  | inr i => py_eq i cid
  | inl _ => false
  end.

Definition snapshot_found (chars cid c : pyval) : Prop :=
  exists d before after,
    chars = PDict d /\
    assoc "data" d = Some (PList (before ++ c :: after)) /\
    Forall (fun x => is_dict x = true /\ has_id cid x = false) before /\
    is_dict c = true /\ has_id cid c = true.

(** [c.get (k, default)] of an entity dict [c]. *)
Definition field (c : pyval) (k : string) (default : pyval) : pyval :=
  match py_get c k default with
  | inr v => v
  | inl _ => default
  end.

(** The entity has a movement descriptor with a positive "partialstep". *)
Definition moving (c : pyval) : Prop :=
  exists md ps p,
    field c "movement" PNone = PDict md /\
    assoc "partialstep" md = Some ps /\
    num_of ps = Some p /\ (0 < p)%Q.

(** The entity fields [validatecharacterstate] copies into its answer. *)
Definition character_summary (c : pyval) : pyval :=
  PDict [("id", field c "id" PNone); ("owner", field c "owner" PNone);
         ("pos", field c "pos" PNone); ("speed", field c "speed" (PInt 0));
         ("inbuilding", field c "inbuilding" PNone);
         ("faction", field c "faction" PNone)].

(** The log of polls that were each followed by the 100 ms sleep. *)
Definition waited (polls : list pyval) : list event :=
  flat_map (fun p => [Ev gsp_getnullstate (inr p); Sleep (1 # 10)]) polls.

Definition timeout_error : pyval :=
  PStr "Timeout waiting for GSP sync after 30 seconds".

(** The clock never runs backwards over a call, and a sleep lasts at
    least as long as asked. *)
Definition clock_monotone : Prop :=
  forall A (c : Call A) (w : W), (time_time w <= time_time (handle c w).2)%Q.

Definition sleep_advances : Prop :=
  forall (d : Q) (w : W), (time_time w + d <= time_time (time_sleep d w))%Q.

(** The shape of an answer that reports the caught exception [e]. *)
Definition reports (flag : string) (r : gmap string pyval) e : Prop :=
  r !! flag = Some (PBool false) /\
  r !! "error" = Some (PStr (exn_msg e)) /\
  r !! "errorType" = Some (PStr (exn_type e)).

(** [body], started on [result = r0], ends in an exception. *)
Definition raises {A} (r0 : gmap string pyval) (body : M W A) s : Prop :=
  exists e, (body (State (world s) (log s) r0)).1 = inl e.

(** The sync state as the specification reads it: a record with a state
    tag and a block hash.  In sync with the target: the tag is
    "up-to-date" and the block hash is the target. *)
Definition in_sync (st : pyval) (blk : string) : Prop :=
  exists d, st = PDict d /\
    assoc "state" d = Some (PStr "up-to-date") /\
    assoc "blockhash" d = Some (PStr blk).

(** Not in sync, with the tag and the block hash to report: either
    the tag is another one, or the block hash is. *)
Definition out_of_sync (st : pyval) (blk : string) (tag bh : pyval) : Prop :=
  exists d, st = PDict d /\
    assoc "state" d = Some tag /\
    bh = default (PStr "unknown") (assoc "blockhash" d) /\
    (tag <> PStr "up-to-date" \/
     (is_Some (assoc "blockhash" d) /\ bh <> PStr blk)).

(** Neither: the tag cannot be read, or it is "up-to-date" and the block
    hash cannot be read. *)
Definition unreadable (st : pyval) e : Prop :=
  py_getitem st "state" = inl e \/
  (py_getitem st "state" = inr (PStr "up-to-date") /\
   py_getitem st "blockhash" = inl e).

Inductive sync_outcome : Type :=
  | Synced
  | TimedOut (tag bh : pyval)
  | Faulted (e : exn).

(** The polling as the specification words it, from the start time [t0]
    on: query the sync state; succeed at once when it is in sync;
    otherwise time out when more than 30 seconds have passed since
    [t0]; otherwise sleep 100 ms and retry.  A query that raises, or a
    state that cannot be read, ends the polling with that fault. *)
Inductive polling (blk : string) (t0 : Q)
  : W -> list event -> sync_outcome -> W -> Prop :=
  | polling_synced w st w' :
      handle gsp_getnullstate w = (inr st, w') ->
      in_sync st blk ->
      polling blk t0 w [Ev gsp_getnullstate (inr st)] Synced w'
  | polling_timeout w st w' tag bh :
      handle gsp_getnullstate w = (inr st, w') ->
      out_of_sync st blk tag bh ->
      (30 < time_time w' - t0)%Q ->
      polling blk t0 w [Ev gsp_getnullstate (inr st)] (TimedOut tag bh) w'
  | polling_retry w st w' tag bh evs o w'' :
      handle gsp_getnullstate w = (inr st, w') ->
      out_of_sync st blk tag bh ->
      (time_time w' - t0 <= 30)%Q ->
      polling blk t0 (time_sleep (1 # 10) w') evs o w'' ->
      polling blk t0 w
        (Ev gsp_getnullstate (inr st) :: Sleep (1 # 10) :: evs) o w''
  | polling_raised w e w' :
      handle gsp_getnullstate w = (inl e, w') ->
      polling blk t0 w [Ev gsp_getnullstate (inl e)] (Faulted e) w'
  | polling_unreadable w st w' e :
      handle gsp_getnullstate w = (inr st, w') ->
      unreadable st e ->
      polling blk t0 w [Ev gsp_getnullstate (inr st)] (Faulted e) w'.

(** Calls that give a name to an address or let the registry spend. *)
Definition ev_changes_owner (ev : event) : bool :=
  match ev with
  | Ev (accounts_register _ _ _) _ | Ev (accounts_transferFrom _ _ _ _) _
  | Ev (wchi_approve _ _ _) _ => true
  | _ => false
  end.

(** The calls of the registration path, and the call of the transfer
    path. *)
Definition ev_registers (ev : event) : bool :=
  match ev with
  | Ev (accounts_register _ _ _) _ | Ev (wchi_approve _ _ _) _ => true
  | _ => false
  end.

Definition ev_transfers (ev : event) : bool :=
  match ev with
  | Ev (accounts_transferFrom _ _ _ _) _ => true
  | _ => false
  end.

(** No call but the last one raised. *)
Definition fault_is_last evs : Prop :=
  Forall (fun ev => ev_faulted ev = false) (removelast evs).

(** The entity has no movement descriptor to speak of: none, a falsy
    one, or one whose "partialstep" (0 if absent) is a number at most 0. *)
Definition not_moving (c : pyval) : Prop :=
  truthy (field c "movement" PNone) = false \/
  exists md p,
    field c "movement" PNone = PDict md /\
    num_of (field (PDict md) "partialstep" (PInt 0)) = Some p /\ (p <= 0)%Q.



Lemma str_take_cons n c (t : string) : str_take (S n) (String c t) = String c (str_take n t).
Proof. reflexivity. Qed.

Lemma str_drop_cons n c (t : string) : str_drop (S n) (String c t) = str_drop n t.
Proof. reflexivity. Qed.

Lemma str_take_drop n (t : string) : str_take n t +:+ str_drop n t = t.
Proof.
  revert t; induction n as [|n IH]; intros [|c t]; try done.
  rewrite str_take_cons, str_drop_cons.
  change (String c (str_take n t +:+ str_drop n t) = String c t). by rewrite IH.
Qed.


Lemma wp_bind {A B} (m : M W A) (f : A -> M W B) Q s :
  wp m (fun r s' => match r with
                    | inr a => wp (f a) Q s'
                    | inl e => Q (inl e) s'
                    end) s ->
  wp (m ≫= f) Q s.
Proof.
  unfold wp, mbind, M_bind. by destruct (m s) as [[e|a] s'].
Qed.

Lemma wp_ret {A} (a : A) (Q : res A -> state W -> Prop) s :
  Q (inr a) s -> wp (mret a) Q s.
Proof. done. Qed.

Lemma wp_lift {A} (r : res A) (Q : res A -> state W -> Prop) s :
  Q r s -> wp (lift r) Q s.
Proof. done. Qed.

Lemma wp_perform {A} (c : Call A) (Q : res A -> state W -> Prop) s :
  (forall r w, handle c (world s) = (r, w) ->
               Q r (State w (log s ++ [Ev c r]) (result s))) ->
  wp (perform c) Q s.
Proof.
  unfold wp, perform. intros HQ.
  destruct (handle c (world s)) as [r w] eqn:Hc. by apply HQ.
Qed.

Lemma wp_set k v (Q : res unit -> state W -> Prop) s :
  Q (inr tt) (State (world s) (log s) (<[k := v]> (result s))) ->
  wp (set k v) Q s.
Proof. done. Qed.

Lemma wp_init r0 (Q : res unit -> state W -> Prop) s :
  Q (inr tt) (State (world s) (log s) r0) -> wp (init r0) Q s.
Proof. done. Qed.

Lemma wp_now (Q : res Q -> state W -> Prop) s :
  Q (inr (time_time (world s))) s -> wp now Q s.
Proof. done. Qed.

Lemma wp_sleep d (Q : res unit -> state W -> Prop) s :
  Q (inr tt) (State (time_sleep d (world s)) (log s ++ [Sleep d]) (result s)) ->
  wp (sleep d) Q s.
Proof. done. Qed.

Lemma wp_mono {A} (m : M W A) (Q Q' : res A -> state W -> Prop) s :
  wp m Q s -> (forall r s', Q r s' -> Q' r s') -> wp m Q' s.
Proof. unfold wp. auto. Qed.

Lemma wp_try_except {A} (body : M W A) (Q : res (option A) -> state W -> Prop) s :
  wp body (fun r s' =>
    match r with
    | inr a => Q (inr (Some a)) s'
    | inl e => Q (inr None)
                 (State (world s') (log s')
                    (<["errorType" := PStr (exn_type e)]>
                       (<["error" := PStr (exn_msg e)]> (result s'))))
    end) s ->
  wp (try_except body) Q s.
Proof.
  unfold wp, try_except. by destruct (body s) as [[e|a] s'].
Qed.

(** A workflow's answer and final state, from its guarded body. *)
Lemma wp_workflow {A} r0 (body : M W A) (P : gmap string pyval -> state W -> Prop) s :
  wp body (fun r s' =>
    match r with
    | inr _ => P (result s') s'
    | inl e =>
        let r' := <["errorType" := PStr (exn_type e)]>
                    (<["error" := PStr (exn_msg e)]> (result s')) in
        P r' (State (world s') (log s') r')
    end) (State (world s) (log s) r0) ->
  forall r s', workflow r0 body s = (r, s') -> P r s'.
Proof.
  unfold wp, workflow, try_except, init, mbind, M_bind. cbn [fst snd].
  intros HP r s' [= <- <-]. by destruct (body _) as [[e|a] s''].
Qed.

Lemma events_since_app s evs w r :
  events_since s (State w (log s ++ evs) r) = evs.
Proof. unfold events_since. cbn [log]. by rewrite drop_app_length. Qed.

End Runs.

(** One step of symbolic execution. *)
Ltac wp_step :=
  lazymatch goal with
  | |- wp (mbind _ _) _ _ => apply wp_bind
  | |- wp (mret _) _ _ => apply wp_ret
  | |- wp (lift _) _ _ => apply wp_lift
  | |- wp (set _ _) _ _ => apply wp_set
  | |- wp (init _) _ _ => apply wp_init
  | |- wp now _ _ => apply wp_now
  | |- wp (sleep _) _ _ => apply wp_sleep
  | |- wp (try_except _) _ _ => apply wp_try_except
  | |- wp (perform _) _ _ =>
      let r := fresh "r" in let w := fresh "w" in let Hc := fresh "Hc" in
      apply wp_perform; intros r w Hc
  | |- wp mineblock _ _ => unfold mineblock
  | |- wp (setbalance _ _) _ _ => unfold setbalance
  | |- wp (ensuregas _) _ _ => unfold ensuregas
  | |- wp (getNameOwner _ _) _ _ => unfold getNameOwner
  | |- wp (tryRegisterName _ _ _) _ _ => unfold tryRegisterName
  | |- wp (validate_move _ _) _ _ => unfold validate_move
  | |- wp (validate_accept _) _ _ => unfold validate_accept
  end; cbn [world log result] in *; cbv beta iota.

(** The log is a left-nested append of the events; flatten it. *)
Ltac norm_log :=
  repeat rewrite <- (app_assoc (log _)); cbn [app];
  repeat rewrite events_since_app.

Ltac wp_case :=
  lazymatch goal with
  | |- match ?r with inl _ => _ | inr _ => _ end =>
      first [ is_var r; destruct r | destruct r eqn:? ]
  | |- wp (if negb ?b then _ else _) _ _ =>
      first [ is_var b; destruct b | destruct b eqn:? ]; cbn [negb]
  | |- wp (if ?b then _ else _) _ _ => destruct b eqn:?
  | |- wp (match ?p with pair _ _ => _ end) _ _ => destruct p
  end; cbv beta iota.

Ltac wp_auto := repeat first [wp_step | wp_case].

(** Turn a goal about [(m s).1] and [(m s).2] into a [wp]. *)
Ltac to_wp m s :=
  pattern (fst (m s)), (snd (m s));
  lazymatch goal with |- ?Q _ _ => change (wp m Q s) end.

(** The same for a workflow, whose exceptions end in [result]. *)
Ltac wp_workflow_of f :=
  lazymatch goal with
  | |- context [fst (f ?s)] =>
      let r := fresh "r" in let s' := fresh "s'" in let Hrun := fresh "Hrun" in
      destruct (f s) as [r s'] eqn:Hrun; cbn [fst snd];
      revert r s' Hrun;
      unfold getname, sendmove, validatecharacterstate;
      lazymatch goal with
      | |- forall r s', workflow ?r0 ?body ?s = (r, s') -> @?P r s' =>
          apply (wp_workflow r0 body P s)
      end
  end.

(** Use that no logged call raised. *)
Ltac no_fault H :=
  repeat lazymatch type of H with
  | Forall _ (_ :: _) => apply Forall_cons in H as [? H]
  end; cbn [ev_faulted] in *; try discriminate.

Ltac pick_gas :=
  lazymatch goal with
  | |- context [Ev (get_balance ?a) (inr ?b) :: Ev (anvil_setBalance _ _) _ :: _] =>
      exists [Ev (get_balance a) (inr b); Ev (anvil_setBalance a minWei) (inr tt)]
  | |- context [Ev (get_balance ?a) (inr ?b) :: _] =>
      exists [Ev (get_balance a) (inr b)]
  end.

Ltac gas_ok :=
  lazymatch goal with
  | Hb : (?b <? minWei) = true |- gas_ensured _ _ =>
      exists b; right; split; [by apply Z.ltb_lt | done]
  | Hb : (?b <? minWei) = false |- gas_ensured _ _ =>
      exists b; left; split; [by apply Z.ltb_ge | done]
  end.

(** ** The workflows *)

Section Workflows.
Context {W : Type} `{World W}.
Implicit Types (s : state W) (e : exn) (evs : list event).

(** C1. [sendmove] on a name the registry says does not exist: the answer
    has [success] false and the error "name ns/name does not exist yet",
    and the only call made is the existence check itself -- no balance
    read or set, no transaction, no block mined. *)
Theorem sendmove_missing_name ns name mv s :
  (handle (accounts_exists ns name) (world s)).1 = inr false ->
  let r := (sendmove ns name mv s).1 in
  let s' := (sendmove ns name mv s).2 in
  r !! "success" = Some (PBool false) /\
  r !! "error"
    = Some (PStr ("name " +:+ ns +:+ "/" +:+ name +:+ " does not exist yet")) /\
  events_since s s' = [Ev (accounts_exists ns name) (inr false)] /\
  filter (fun ev => ev_mutating ev = true) (events_since s s') = [].
Proof.
  intros Hex. cbv zeta. wp_workflow_of (sendmove ns name mv).
  unfold sendmove_try. cbv zeta. repeat wp_step.
  rewrite Hc in Hex. cbn [fst] in Hex. subst r.
  cbn [negb]. wp_step. norm_log. unfold sendmove_init.
  by simplify_map_eq.
Qed.

(** C2. [getname] when no call fails: what it does depends only on the
    answer of the existence check.  On [false] it ensures gas for the
    receiver, approves, mines, registers, mines, and answers
    "registered"; on [true] it reads token id and owner, ensures gas for
    the owner, transfers from the owner, mines, and answers
    "transferred" with [previousOwner] and [tokenId] as read -- whether
    or not the owner already is the receiver. *)
Theorem getname_outcome ns name receiver s (ex : bool) :
  (handle (accounts_exists ns name) (world s)).1 = inr ex ->
  let r := (getname ns name receiver s).1 in
  let evs := events_since s (getname ns name receiver s).2 in
  Forall (fun ev => ev_faulted ev = false) evs ->
  if ex then
    exists gas tokenId prev tx,
      evs = ([Ev (accounts_exists ns name) (inr true);
              Ev (accounts_tokenIdForName ns name) (inr tokenId);
              Ev (accounts_ownerOf tokenId) (inr prev)]
             ++ gas ++
             [Ev (accounts_transferFrom prev receiver tokenId prev) (inr tx);
              Ev (evm_mine None) (inr tt)])%list /\
      gas_ensured prev gas /\
      r = transferred_result ns name receiver prev tokenId
  else
    exists gas tx tx',
      evs = ([Ev (accounts_exists ns name) (inr false)]
             ++ gas ++
             [Ev (wchi_approve accounts_address uint256_max receiver) (inr tx);
              Ev (evm_mine None) (inr tt);
              Ev (accounts_register ns name receiver) (inr tx');
              Ev (evm_mine None) (inr tt)])%list /\
      gas_ensured receiver gas /\
      r = registered_result ns name receiver.
Proof.
  intros Hex. cbv zeta. wp_workflow_of (getname ns name receiver).
  unfold getname_try. repeat wp_step.
  rewrite Hc in Hex. cbn [fst] in Hex. subst r.
  destruct ex; wp_auto; norm_log; intros HF; no_fault HF.
  all: repeat match goal with u : unit |- _ => destruct u end.
  1-2: pick_gas; eexists _, _, _.
  3-4: pick_gas; eexists _, _.
  all: split; [reflexivity | split; [gas_ok | reflexivity]].
Qed.


(** C9. [ensuregas] on an address whose balance is at least [minWei]
    (one ether in wei) only reads the balance.  Below [minWei] it asks
    for the balance to be set to [minWei], nothing else; and once the
    chain reports that balance, a second [ensuregas] changes nothing. *)
Theorem ensuregas_idempotent addr s bal w1 :
  handle (get_balance addr) (world s) = (inr bal, w1) ->
  let s' := (ensuregas addr s).2 in
  (minWei <= bal ->
   (ensuregas addr s).1 = inr tt /\
   events_since s s' = [Ev (get_balance addr) (inr bal)]) /\
  (bal < minWei ->
   events_since s s'
     = [Ev (get_balance addr) (inr bal);
        Ev (anvil_setBalance addr minWei)
           (handle (anvil_setBalance addr minWei) w1).1] /\
   ((handle (anvil_setBalance addr minWei) w1).1 = inr tt ->
    (handle (get_balance addr) (world s')).1 = inr minWei ->
    (ensuregas addr s').1 = inr tt /\
    filter (fun ev => ev_mutating ev = true)
           (events_since s' (ensuregas addr s').2) = [])).
Proof.
  intros Hbal. cbv zeta.
  assert (Hok : forall s0 b,
            (handle (get_balance addr) (world s0)).1 = inr b ->
            minWei <= b ->
            (ensuregas addr s0).1 = inr tt /\
            events_since s0 (ensuregas addr s0).2 = [Ev (get_balance addr) (inr b)]).
  { intros s0 b Hb Hle. to_wp (ensuregas addr) s0. repeat wp_step.
    rewrite Hc in Hb. cbn [fst] in Hb. subst r.
    destruct (Z.ltb_spec b minWei); [lia|]. repeat wp_step. by norm_log. }
  split.
  - intros Hle. apply Hok; [by rewrite Hbal | done].
  - intros Hlt.
    assert (Hs' : events_since s (ensuregas addr s).2
                  = [Ev (get_balance addr) (inr bal);
                     Ev (anvil_setBalance addr minWei)
                        (handle (anvil_setBalance addr minWei) w1).1]).
    { to_wp (ensuregas addr) s. repeat wp_step. rewrite Hbal in Hc. simplify_eq.
      destruct (Z.ltb_spec bal minWei); [|lia]. repeat wp_step.
      rewrite Hc. by norm_log. }
    split; [done|].
    intros Hset Hget. destruct (Hok _ _ Hget) as [-> ->]; [lia|]. done.
Qed.

Lemma find_character_first cid before c after :
  Forall (fun x => is_dict x = true /\ has_id cid x = false) before ->
  has_id cid c = true ->
  find_character (before ++ c :: after) cid = inr c.
Proof.
  unfold has_id. intros Hb Hc. induction Hb as [|x before [Hd Hx] _ IH].
  - cbn [app find_character]. destruct (py_get c "id" PNone); [done|]. by rewrite Hc.
  - destruct x as [| | | | | |xd]; try done.
    cbn [app find_character py_get] in *. by rewrite Hx.
Qed.

(** Once the entity is found, what remains to run is the action's check,
    from a state that holds the entity's summary. *)
Lemma validate_found cid action s chars c P :
  (handle gsp_getcharacters (world s)).1 = inr chars ->
  snapshot_found chars cid c ->
  (forall w,
    wp (if py_eq action (PStr "move") then validate_move c action
        else validate_accept action)
       (fun r s' =>
          match r with
          | inr _ => P (result s')
          | inl e => P (<["errorType" := PStr (exn_type e)]>
                          (<["error" := PStr (exn_msg e)]> (result s')))
          end)
       (State w (log s ++ [Ev gsp_getcharacters (inr chars)])
              (<["character" := character_summary c]>
                 (validate_init cid action)))) ->
  P (validatecharacterstate cid action s).1.
Proof.
  intros Hchars (d & before & after & -> & Hdata & Hbefore & Hdict & Hid) HP.
  wp_workflow_of (validatecharacterstate cid action).
  unfold validate_try. repeat wp_step.
  rewrite Hc in Hchars. cbn [fst] in Hchars. subst r.
  repeat wp_step. cbn [py_get]. rewrite Hdata. repeat wp_step. cbn [py_iter].
  repeat wp_step. rewrite find_character_first by done.
  destruct c as [| | | | | |cd]; try done. cbn [is_none].
  repeat wp_step. cbn [py_get]. repeat wp_step.
  eapply wp_mono; [apply (HP w)|]. by intros [e|[]] s'.
Qed.

Lemma py_eq_str (a : pyval) (t : string) :
  py_eq a (PStr t) = true <-> a = PStr t.
Proof.
  destruct a; cbn; try (split; [done|congruence]).
  rewrite bool_decide_eq_true. split; congruence.
Qed.

Lemma Qle_bool_false (p q : Q) : (q < p)%Q -> Qle_bool p q = false.
Proof.
  intros Hlt. destruct (Qle_bool p q) eqn:Hle; [|done].
  apply Qle_bool_iff in Hle. lra.
Qed.



(** C10. For any action other than "move" and a found entity the answer
    is valid: it holds the entity's summary and the message and nothing
    else, so no field of the entity is checked. *)
Theorem validate_other_action cid action s chars c :
  (handle gsp_getcharacters (world s)).1 = inr chars ->
  snapshot_found chars cid c ->
  action <> PStr "move" ->
  (validatecharacterstate cid action s).1
  = <["message" := PStr ("Character can perform " +:+ py_str action +:+ " action")]>
      (<["valid" := PBool true]>
         (<["character" := character_summary c]> (validate_init cid action))).
Proof.
  intros Hchars Hfound Hact.
  apply (validate_found cid action s chars c (fun r => r = _)); try done.
  intros w. destruct (py_eq action (PStr "move")) eqn:Heq.
  { by apply py_eq_str in Heq. }
  unfold validate_accept. by repeat wp_step.
Qed.

Lemma timeout_error_eq :
  PStr ("Timeout waiting for GSP sync after " +:+ pretty maxWait +:+ " seconds")
  = timeout_error.
Proof. by vm_compute. Qed.

Lemma sync_loop_S fuel blk t0 :
  sync_loop (W := W) (S fuel) blk t0
  = (st ← perform gsp_getnullstate;
     synced ← lift (is_synced st blk);
     if synced : bool then mret (Some true)
     else
       t ← now;
       if negb (Qle_bool (t - t0) (inject_Z maxWait)) then
         set "error" (PStr ("Timeout waiting for GSP sync after "
                            +:+ pretty maxWait +:+ " seconds"));;
         tag ← lift (py_getitem st "state");
         set "lastState" tag;;
         bh ← lift (py_get st "blockhash" (PStr "unknown"));
         set "lastBlock" bh;;
         mret (Some false)
       else
         sleep (1 # 10);;
         sync_loop fuel blk t0).
Proof. reflexivity. Qed.

Lemma is_synced_state st blk b e :
  is_synced st blk = inr b -> py_getitem st "state" = inl e -> False.
Proof. unfold is_synced. intros Hs Hg. by rewrite Hg in Hs. Qed.

Lemma is_synced_get st blk b default e :
  is_synced st blk = inr b -> py_get st "blockhash" default = inl e -> False.
Proof. unfold is_synced. destruct st; try done. Qed.

(** What the polling loop has done when it is left, by [break], by the
    timeout or by an exception. *)
Lemma sync_loop_spec fuel blk t0 s :
  wp (sync_loop fuel blk t0)
     (fun r s' =>
        match r with
        | inr (Some true) =>
            exists polls last,
              log s' = (log s ++ waited polls ++ [Ev gsp_getnullstate (inr last)])%list /\
              Forall (fun p => is_synced p blk = inr false) polls /\
              is_synced last blk = inr true /\
              result s' = result s
        | inr (Some false) =>
            exists polls last tag bh,
              log s' = (log s ++ waited polls ++ [Ev gsp_getnullstate (inr last)])%list /\
              Forall (fun p => is_synced p blk = inr false) (polls ++ [last]) /\
              py_getitem last "state" = inr tag /\
              py_get last "blockhash" (PStr "unknown") = inr bh /\
              (inject_Z maxWait < time_time (world s') - t0)%Q /\
              result s' = <["lastBlock" := bh]>
                            (<["lastState" := tag]>
                               (<["error" := timeout_error]> (result s)))
        | inr None => True
        | inl e =>
            exists polls x,
              log s' = (log s ++ waited polls ++ [Ev gsp_getnullstate x])%list /\
              Forall (fun p => is_synced p blk = inr false) polls /\
              (x = inl e \/ exists last, x = inr last /\ is_synced last blk = inl e) /\
              result s' = result s
        end) s.
Proof.
  revert s. induction fuel as [|fuel IH]; intros s; [cbn [sync_loop]; by wp_step|].
  rewrite sync_loop_S.
  wp_auto.
  - exists [], (inl e). split; [done|]. split; [done|]. split; [by left|done].
  - lazymatch goal with Hp : handle gsp_getnullstate _ = (inr ?p, _) |- _ =>
      exists [], (inr p) end.
    split; [done|]. split; [done|]. split; [right; eauto|done].
  - lazymatch goal with Hp : handle gsp_getnullstate _ = (inr ?p, _) |- _ =>
      exists [], p end.
    done.
  - eapply wp_mono; [apply IH|]. cbn [log result world].
    lazymatch goal with Hp : handle gsp_getnullstate _ = (inr ?p, _) |- _ =>
      rename p into p0 end.
    intros [e|[[]|]] s'; [| | |done].
    + intros (polls & x & Hlog & Hpolls & Hx & Hres).
      exists (p0 :: polls), x. split; [by rewrite Hlog, <- !app_assoc|].
      split; [by constructor|done].
    + intros (polls & last & Hlog & Hpolls & Hlast & Hres).
      exists (p0 :: polls), last. split; [by rewrite Hlog, <- !app_assoc|].
      split; [by constructor|done].
    + intros (polls & last & tag & bh & Hlog & Hpolls & Htag & Hbh & Ht & Hres).
      exists (p0 :: polls), last, tag, bh. split; [by rewrite Hlog, <- !app_assoc|].
      split; [by constructor|done].
  - exfalso. eauto using is_synced_state.
  - exfalso. eauto using is_synced_get.
  - lazymatch goal with Hp : handle gsp_getnullstate _ = (inr ?p, _) |- _ =>
      exists [], p end.
    eexists _, _. rewrite timeout_error_eq.
    split; [done|]. split; [by repeat constructor|].
    split; [done|]. split; [done|]. split; [|done].
    cbn [world].
    lazymatch goal with
    | Hb : Qle_bool ?x ?y = false |- _ =>
        destruct (Qlt_le_dec y x) as [|Hle]; [done|];
        apply Qle_bool_iff in Hle; congruence
    end.
Qed.


(** With a clock that moves on, [S n] polls are enough once less than
    [n] tenths of a second remain until the deadline. *)
Lemma sync_loop_fuel (Hmono : clock_monotone) (Hsleep : sleep_advances)
    n blk t0 s :
  ((inject_Z maxWait - (time_time (world s) - t0)) * 10 < inject_Z (Z.of_nat n))%Q ->
  wp (sync_loop (S n) blk t0) (fun r _ => r <> inr None) s.
Proof.
  revert s. induction n as [|n IH]; intros s Hn; rewrite sync_loop_S; wp_auto; try done.
  all: lazymatch goal with
       | Hp : handle gsp_getnullstate (world ?s0) = (_, ?w) |- _ =>
           pose proof (Hmono _ gsp_getnullstate (world s0)) as Hw;
           rewrite Hp in Hw; cbn [snd] in Hw
       end.
  all: lazymatch goal with
       | Hb : Qle_bool _ _ = true |- _ => apply Qle_bool_iff in Hb
       end.
  - exfalso. change (inject_Z (Z.of_nat 0)) with 0%Q in Hn. lra.
  - eapply wp_mono; [apply IH|done]. cbn [world].
    lazymatch goal with
    | |- context [time_sleep ?d ?w] => pose proof (Hsleep d w)
    end.
    rewrite Nat2Z.inj_succ, <- Z.add_1_r, inject_Z_plus in Hn.
    change (inject_Z 1) with 1%Q in Hn. lra.
Qed.

(** The clock does not run backwards over the loop. *)
Lemma sync_loop_clock (Hmono : clock_monotone) (Hsleep : sleep_advances)
    fuel blk t0 s :
  wp (sync_loop fuel blk t0)
     (fun _ s' => (time_time (world s) <= time_time (world s'))%Q) s.
Proof.
  revert s. induction fuel as [|fuel IH]; intros s;
    [cbn [sync_loop]; wp_step; lra|].
  rewrite sync_loop_S. wp_auto.
  all: lazymatch goal with
       | Hp : handle gsp_getnullstate (world ?s0) = (_, ?w) |- _ =>
           pose proof (Hmono _ gsp_getnullstate (world s0)) as Hw;
           rewrite Hp in Hw; cbn [snd] in Hw
       end; try done.
  eapply wp_mono; [apply IH|]. cbn [world]. intros _ s' Hs'.
  lazymatch goal with
  | _ : context [time_sleep ?d ?w] |- _ => pose proof (Hsleep d w)
  end. lra.
Qed.

Lemma events_since_log s s' evs :
  log s' = (log s ++ evs)%list -> events_since s s' = evs.
Proof. unfold events_since. intros ->. by rewrite drop_app_length. Qed.

Lemma wp_and {A} (m : M W A) (Q1 Q2 : res A -> state W -> Prop) s :
  wp m Q1 s -> wp m Q2 s -> wp m (fun r s' => Q1 r s' /\ Q2 r s') s.
Proof. by split. Qed.

Lemma round3_nonneg (x : Q) : (0 <= x)%Q -> (0 <= round3 x)%Q.
Proof.
  intros Hx. unfold round3.
  assert (Hf : 0 <= Qfloor (x * 1000)).
  { change 0 with (Qfloor 0). apply Qfloor_resp_le. lra. }
  unfold Qle. cbn [Qnum Qden].
  destruct (Qle_bool _ _); [destruct (_ && _)|]; lia.
Qed.

(** [syncgsp]'s answer, from its guarded body. *)
Lemma wp_syncgsp fuel (P : option (gmap string pyval) -> state W -> Prop) s :
  wp (syncgsp_try fuel)
     (fun r s' =>
        match r with
        | inr true => P (Some (result s')) s'
        | inr false => P None s'
        | inl e =>
            let r' := <["errorType" := PStr (exn_type e)]>
                        (<["error" := PStr (exn_msg e)]> (result s')) in
            P (Some r') (State (world s') (log s') r')
        end) (State (world s) (log s) syncgsp_init) ->
  P (syncgsp fuel s).1 (syncgsp fuel s).2.
Proof.
  unfold wp, syncgsp, try_except, init, mbind, M_bind. cbn [fst snd].
  by destruct (syncgsp_try fuel _) as [[e|[]] s'].
Qed.

Lemma is_synced_true st blk : is_synced st blk = inr true <-> in_sync st blk.
Proof.
  unfold is_synced, in_sync. split.
  - destruct st as [| | | | | |d]; try done. cbn [py_getitem].
    destruct (assoc "state" d) as [tag|] eqn:Htag; [|done].
    destruct (py_eq tag (PStr "up-to-date")) eqn:Heq; [|done].
    apply py_eq_str in Heq. subst tag.
    destruct (assoc "blockhash" d) as [bh|] eqn:Hbh; [|done].
    intros [= Hb]. apply py_eq_str in Hb. subst bh. by exists d.
  - intros (d & -> & Htag & Hbh). cbn [py_getitem]. rewrite Htag, Hbh.
    assert (Hu : py_eq (PStr "up-to-date") (PStr "up-to-date") = true)
      by by apply py_eq_str.
    rewrite Hu. f_equal. by apply py_eq_str.
Qed.

Lemma is_synced_false st blk :
  is_synced st blk = inr false <->
  exists tag bh, out_of_sync st blk tag bh.
Proof.
  unfold is_synced, out_of_sync. split.
  - destruct st as [| | | | | |d]; try done. cbn [py_getitem].
    destruct (assoc "state" d) as [tag|] eqn:Htag; [|done].
    destruct (py_eq tag (PStr "up-to-date")) eqn:Heq.
    + destruct (assoc "blockhash" d) as [bh|] eqn:Hbh; [|done].
      intros [= Hb]. exists tag, bh, d. rewrite Hbh.
      split; [done|]. split; [done|]. split; [done|]. right. split; [by eexists|].
      intros Hx. apply py_eq_str in Hx. congruence.
    + intros _. exists tag, (default (PStr "unknown") (assoc "blockhash" d)), d.
      split; [done|]. split; [done|]. split; [done|]. left.
      intros Hx. apply py_eq_str in Hx. congruence.
  - intros (tag & bh & d & -> & Htag & Hbh & Hor). cbn [py_getitem]. rewrite Htag.
    destruct (py_eq tag (PStr "up-to-date")) eqn:Heq; [|done].
    apply py_eq_str in Heq. destruct Hor as [Hor|([b Hb] & Hne)]; [done|].
    rewrite Hb in *. cbn in Hbh. subst b. f_equal.
    destruct (py_eq bh (PStr blk)) eqn:Hx; [|done]. by apply py_eq_str in Hx.
Qed.

Lemma is_synced_fault st blk e : is_synced st blk = inl e <-> unreadable st e.
Proof.
  unfold is_synced, unreadable.
  destruct (py_getitem st "state") as [e0|tag] eqn:Htag.
  - split; [intros [= ->]; by left|]. intros [[= ->]|[? _]]; done.
  - destruct (py_eq tag (PStr "up-to-date")) eqn:Heq.
    + apply py_eq_str in Heq. subst tag.
      destruct (py_getitem st "blockhash") as [e1|bh] eqn:Hbh.
      * split; [intros [= ->]; by right|]. intros [|[_ [= ->]]]; done.
      * split; [done|]. intros [|[_ ?]]; done.
    + split; [done|]. intros [|[[= ->] _]]; [done|].
      assert (py_eq (PStr "up-to-date") (PStr "up-to-date") = true)
        by by apply py_eq_str.
      congruence.
Qed.

Lemma out_of_sync_reads st blk tag bh :
  out_of_sync st blk tag bh ->
  py_getitem st "state" = inr tag /\
  py_get st "blockhash" (PStr "unknown") = inr bh.
Proof.
  intros (d & -> & Htag & -> & _). cbn [py_getitem py_get]. rewrite Htag.
  split; [done|]. by destruct (assoc "blockhash" d).
Qed.

(** The loop runs the polling of the specification. *)
Lemma sync_loop_polling fuel blk t0 s :
  wp (sync_loop fuel blk t0)
     (fun r s' =>
        match r with
        | inr None => True
        | inr (Some true) =>
            exists evs,
              log s' = (log s ++ evs)%list /\
              polling blk t0 (world s) evs Synced (world s') /\
              result s' = result s
        | inr (Some false) =>
            exists evs tag bh,
              log s' = (log s ++ evs)%list /\
              polling blk t0 (world s) evs (TimedOut tag bh) (world s') /\
              result s' = <["lastBlock" := bh]>
                            (<["lastState" := tag]>
                               (<["error" := timeout_error]> (result s)))
        | inl e =>
            exists evs,
              log s' = (log s ++ evs)%list /\
              polling blk t0 (world s) evs (Faulted e) (world s') /\
              result s' = result s
        end) s.
Proof.
  revert s. induction fuel as [|fuel IH]; intros s; [cbn [sync_loop]; by wp_step|].
  rewrite sync_loop_S.
  wp_auto.
  - eexists. split; [done|]. split; [|done]. by apply polling_raised.
  - eexists. split; [done|]. split; [|done].
    eapply polling_unreadable; [done|]. by apply (is_synced_fault _ blk).
  - eexists. split; [done|]. split; [|done].
    eapply polling_synced; [done|]. by apply is_synced_true.
  - lazymatch goal with Hs : is_synced _ _ = inr false |- _ =>
      apply is_synced_false in Hs as (tag & bh & Hout) end.
    lazymatch goal with Hb : Qle_bool _ _ = true |- _ =>
      apply Qle_bool_iff in Hb; change (inject_Z maxWait) with 30%Q in Hb end.
    eapply wp_mono; [apply IH|]. cbn [log result world].
    intros [e|[[]|]] s'; [| | |done].
    + intros (evs & Hlog & Hpoll & Hres).
      eexists. split; [by rewrite Hlog, <- !app_assoc|]. split; [|done].
      by eapply polling_retry.
    + intros (evs & Hlog & Hpoll & Hres).
      eexists. split; [by rewrite Hlog, <- !app_assoc|]. split; [|done].
      by eapply polling_retry.
    + intros (evs & tg & bk & Hlog & Hpoll & Hres).
      eexists _, tg, bk. split; [by rewrite Hlog, <- !app_assoc|]. split; [|done].
      by eapply polling_retry.
  - exfalso. eauto using is_synced_state.
  - exfalso. eauto using is_synced_get.
  - lazymatch goal with Hs : is_synced _ _ = inr false |- _ =>
      apply is_synced_false in Hs as (tag & bh & Hout) end.
    destruct (out_of_sync_reads _ _ _ _ Hout) as [Htag Hbh].
    eexists _, tag, bh. rewrite timeout_error_eq.
    split; [done|]. split; [|congruence].
    eapply polling_timeout; [done|done|]. cbn [world].
    lazymatch goal with
    | Hb : Qle_bool ?x ?y = false |- _ =>
        change (inject_Z maxWait) with 30%Q in Hb;
        destruct (Qlt_le_dec 30 x) as [|Hle]; [done|];
        apply Qle_bool_iff in Hle; congruence
    end.
Qed.

Lemma out_of_sync_false st blk tag bh :
  out_of_sync st blk tag bh -> is_synced st blk = inr false.
Proof. intros Hout. apply is_synced_false. eauto. Qed.

Lemma out_of_sync_fun st blk tag bh tag' bh' :
  out_of_sync st blk tag bh -> out_of_sync st blk tag' bh' ->
  tag = tag' /\ bh = bh'.
Proof.
  intros (d & -> & Htag & -> & _) (d' & [= <-] & Htag' & -> & _).
  split; congruence.
Qed.

(** The polling of the specification leaves no choice: from a world it
    has one run. *)
Lemma polling_deterministic blk t0 (w : W) evs o w1 evs' o' w2 :
  polling blk t0 w evs o w1 -> polling blk t0 w evs' o' w2 ->
  evs = evs' /\ o = o' /\ w1 = w2.
Proof.
  intros Hp. revert evs' o' w2.
  induction Hp as [w st w' Hc Hin|w st w' tag bh Hc Hout Ht
                  |w st w' tag bh evs o w'' Hc Hout Ht Hp IH
                  |w e w' Hc|w st w' e Hc Hun];
    intros evs' o' w2 Hq;
    destruct Hq as [w st2 w2 Hc2 Hin2|w st2 w2 tag2 bh2 Hc2 Hout2 Ht2
                   |w st2 w2' tag2 bh2 evs2 o2 w2 Hc2 Hout2 Ht2 Hq
                   |w e2 w2 Hc2|w st2 w2 e2 Hc2 Hun2];
    rewrite Hc in Hc2; simplify_eq.
  all: try done.
  all: try (exfalso; lra).
  all: try (destruct (out_of_sync_fun _ _ _ _ _ _ Hout Hout2) as [<- <-]; done).
  all: try (destruct (IH _ _ _ Hq) as (-> & -> & ->); done).
  all: repeat match goal with
       | Hx : in_sync _ _ |- _ => apply is_synced_true in Hx
       | Hx : out_of_sync _ _ _ _ |- _ =>
           apply out_of_sync_false in Hx
       | Hx : unreadable _ _ |- _ => apply (is_synced_fault _ blk) in Hx
       end.
  all: try (exfalso; congruence).
  assert (e = e2) as -> by congruence. done.
Qed.

Lemma strip_0x_spec (b : string) :
  b = "0x" +:+ strip_0x b \/ (b = strip_0x b /\ str_take 2 b <> "0x").
Proof.
  unfold strip_0x. case_bool_decide as Hp; [left|by right].
  rewrite <- Hp. by rewrite str_take_drop.
Qed.

(** [round (x, 3)] is within half a thousandth of [x]. *)
Lemma round3_close (x : Q) :
  (x - (1 # 2000) <= round3 x)%Q /\ (round3 x <= x + (1 # 2000))%Q.
Proof.
  unfold round3.
  pose proof (Qfloor_le (x * 1000)) as Hlo.
  pose proof (Qlt_floor (x * 1000)) as Hhi.
  rewrite inject_Z_plus in Hhi. change (inject_Z 1) with 1%Q in Hhi.
  set (f := Qfloor (x * 1000)) in *.
  assert (Hn : forall n : Z, (n # 1000 == inject_Z n * (1 # 1000))%Q)
    by (intros n; rewrite Qmake_Qdiv; reflexivity).
  destruct (Qle_bool _ _) eqn:Hle.
  - apply Qle_bool_iff in Hle.
    destruct (Qeq_bool _ _) eqn:Heq; cbn [andb];
      [apply Qeq_bool_iff in Heq; destruct (Z.odd f)|];
      rewrite Hn, ?inject_Z_plus; change (inject_Z 1) with 1%Q; split; lra.
  - assert (Hgt : (1 # 2 < x * 1000 - inject_Z f)%Q).
    { destruct (Qlt_le_dec (1 # 2) (x * 1000 - inject_Z f)) as [|Hc]; [done|].
      apply Qle_bool_iff in Hc. congruence. }
    rewrite Hn, inject_Z_plus. change (inject_Z 1) with 1%Q.
    split; lra.
Qed.

(** C4, as the code has it.  [syncgsp], on a head hash of 64 characters
    and with a clock that moves on, returns within 302 polls.  Its
    target is the head hash without a leading "0x", and after reading
    it the calls it makes are those of the polling of the
    specification, started at the time [syncgsp] was entered.  When
    the polling ends in sync -- be it before or after the deadline --
    the answer has [success] true, the target as [blockhash], no error,
    and as [waitTime] the time elapsed, to the millisecond and at least
    0.  When it ends by the timeout -- a poll that is not in sync,
    more than 30 seconds after the start -- the answer has [success]
    false, the timeout error and that poll's state tag and block hash.
    When it ends by a fault, the answer carries the exception. *)
Theorem syncgsp_polls (Hmono : clock_monotone) (Hsleep : sleep_advances) s h fuel :
  (handle get_block_latest_hash (world s)).1 = inr h ->
  let blk := strip_0x (hex h) in
  String.length blk = 64%nat ->
  (302 <= fuel)%nat ->
  exists r evs o,
    (syncgsp fuel s).1 = Some r /\
    (hex h = "0x" +:+ blk \/ (hex h = blk /\ str_take 2 (hex h) <> "0x")) /\
    r !! "targetBlock" = Some (PStr blk) /\
    let s' := (syncgsp fuel s).2 in
    let elapsed := (time_time (world s') - time_time (world s))%Q in
    events_since s s' = Ev get_block_latest_hash (inr h) :: evs /\
    polling blk (time_time (world s))
            (handle get_block_latest_hash (world s)).2 evs o (world s') /\
    match o with
    | Synced =>
        r !! "success" = Some (PBool true) /\
        r !! "blockhash" = Some (PStr blk) /\
        r !! "error" = None /\
        exists q,
          r !! "waitTime" = Some (PFloat q) /\ (0 <= q)%Q /\
          (elapsed - (1 # 2000) <= q)%Q /\ (q <= elapsed + (1 # 2000))%Q
    | TimedOut tag bh =>
        r !! "success" = Some (PBool false) /\
        r !! "error" = Some timeout_error /\
        r !! "lastState" = Some tag /\
        r !! "lastBlock" = Some bh /\
        r !! "errorType" = None
    | Faulted e => reports "success" r e
    end.
Proof.
  intros Hh blk Hlen Hfuel.
  pose proof (strip_0x_spec (hex h)) as Hstrip. fold blk in Hstrip.
  subst blk.
  pattern (syncgsp fuel s).1, (syncgsp fuel s).2. apply wp_syncgsp.
  unfold syncgsp_try. repeat wp_step.
  rewrite Hc in Hh |- *. cbn [fst snd] in Hh |- *. subst r. cbv zeta.
  rewrite Hlen. cbn [Nat.eqb negb]. do 3 wp_step.
  pose proof (Hmono _ get_block_latest_hash (world s)) as Hw.
  rewrite Hc in Hw. cbn [snd] in Hw.
  destruct fuel as [|n]; [lia|].
  eapply wp_mono.
  { apply wp_and; [apply sync_loop_polling|apply wp_and];
      [apply (sync_loop_fuel Hmono Hsleep)|apply (sync_loop_clock Hmono Hsleep)].
    cbn [world].
    assert (inject_Z 301 <= inject_Z (Z.of_nat n))%Q by (rewrite <- Zle_Qle; lia).
    change (inject_Z maxWait) with 30%Q. change (inject_Z 301) with 301%Q in *. lra. }
  cbn [world log result].
  intros [e|[[]|]] s'; cbv beta iota.
  - intros ((evs & Hlog & Hpoll & Hres) & _ & _).
    exists (<["errorType" := PStr (exn_type e)]>
              (<["error" := PStr (exn_msg e)]> (result s'))), evs, (Faulted e).
    split; [done|]. split; [done|]. rewrite Hres. split; [by simplify_map_eq|].
    split; [apply events_since_log; cbn [log]; by rewrite Hlog, <- app_assoc|].
    split; [done|]. unfold reports. by simplify_map_eq.
  - intros ((evs & Hlog & Hpoll & Hres) & _ & Hclock).
    repeat wp_step.
    eexists _, evs, Synced.
    split; [done|]. split; [done|]. rewrite Hres. split; [by simplify_map_eq|].
    split; [apply events_since_log; cbn [log]; by rewrite Hlog, <- app_assoc|].
    split; [done|].
    split; [by simplify_map_eq|]. split; [by simplify_map_eq|].
    split; [by simplify_map_eq|].
    exists (round3 (time_time (world s') - time_time (world s))).
    split; [by simplify_map_eq|]. split; [apply round3_nonneg; lra|].
    apply round3_close.
  - intros ((evs & tag & bh & Hlog & Hpoll & Hres) & _ & _).
    repeat wp_step.
    eexists _, evs, (TimedOut tag bh).
    split; [done|]. split; [done|]. rewrite Hres. split; [by simplify_map_eq|].
    split; [apply events_since_log; by rewrite Hlog, <- app_assoc|].
    split; [done|]. by simplify_map_eq.
  - by intros (_ & Hnone & _).
Qed.

(** C7, as the code has it.  A head hash whose normalised form is not 64
    characters long fails the assertion before any poll; the
    [AssertionError] is an [Exception] like any other and ends in the
    answer: [success] false, an empty [error], [errorType]
    "AssertionError".  Nothing is retried. *)
Theorem syncgsp_bad_hash s h fuel :
  (handle get_block_latest_hash (world s)).1 = inr h ->
  String.length (strip_0x (hex h)) <> 64%nat ->
  (syncgsp fuel s).1
  = Some (<["errorType" := PStr "AssertionError"]>
            (<["error" := PStr ""]> syncgsp_init)) /\
  events_since s (syncgsp fuel s).2 = [Ev get_block_latest_hash (inr h)].
Proof.
  intros Hh Hlen.
  pattern (syncgsp fuel s).1, (syncgsp fuel s).2. apply wp_syncgsp.
  unfold syncgsp_try. repeat wp_step.
  rewrite Hc in Hh. cbn [fst] in Hh. subst r. cbv zeta.
  apply Nat.eqb_neq in Hlen. rewrite Hlen. cbn [negb]. wp_step.
  by norm_log.
Qed.

Lemma ev_exn_waited polls e : ~ In (Some e) (map ev_exn (waited polls)).
Proof. induction polls as [|p polls IH]; simpl; intuition congruence. Qed.

(** A loop that is still running has seen no call raise. *)
Lemma sync_loop_running fuel blk t0 s :
  wp (sync_loop fuel blk t0)
     (fun r s' =>
        r = inr None ->
        exists evs, log s' = (log s ++ evs)%list /\
                    Forall (fun ev => ev_exn ev = None) evs) s.
Proof.
  revert s. induction fuel as [|fuel IH]; intros s.
  { cbn [sync_loop]. wp_step. intros _. exists []. by rewrite app_nil_r. }
  rewrite sync_loop_S. wp_auto; try done.
  eapply wp_mono; [apply IH|]. cbn [log result world].
  intros r s' Hr Hnone. destruct (Hr Hnone) as (evs & Hlog & Hok).
  eexists. split; [by rewrite Hlog, <- !app_assoc|].
  by repeat constructor.
Qed.

(** C5. Whatever the inputs and the state of the world: when a
    capability call inside [getname], [sendmove],
    [validatecharacterstate] or [syncgsp] raises, the workflow returns
    an answer, which has the flag ([success], or [valid]) false, [error]
    the exception's message and [errorType] its class name.  For
    [syncgsp] this holds for every bound on the number of polls: a run
    in which a call raised has returned.  The workflows themselves are
    functions to an answer: nothing is raised to the caller. *)
Theorem faults_become_results s e :
  (forall ns name receiver,
     In (Some e) (map ev_exn (events_since s (getname ns name receiver s).2)) ->
     reports "success" (getname ns name receiver s).1 e) /\
  (forall ns name mv,
     In (Some e) (map ev_exn (events_since s (sendmove ns name mv s).2)) ->
     reports "success" (sendmove ns name mv s).1 e) /\
  (forall cid action,
     In (Some e) (map ev_exn (events_since s (validatecharacterstate cid action s).2)) ->
     reports "valid" (validatecharacterstate cid action s).1 e) /\
  (forall fuel,
     In (Some e) (map ev_exn (events_since s (syncgsp fuel s).2)) ->
     exists r, (syncgsp fuel s).1 = Some r /\ reports "success" r e).
Proof.
  unfold reports. split; [|split; [|split]].
  - intros ns name receiver. wp_workflow_of (getname ns name receiver).
    unfold getname_try, getname_init. wp_auto.
    all: norm_log; simpl; intros Hin; decompose [or] Hin; simplify_eq.
    all: by simplify_map_eq.
  - intros ns name mv. wp_workflow_of (sendmove ns name mv).
    unfold sendmove_try, sendmove_init. cbv zeta. wp_auto.
    all: norm_log; simpl; intros Hin; decompose [or] Hin; simplify_eq.
    all: by simplify_map_eq.
  - intros cid action. wp_workflow_of (validatecharacterstate cid action).
    unfold validate_try, validate_init. wp_auto.
    all: norm_log; simpl; intros Hin; decompose [or] Hin; simplify_eq.
    all: by simplify_map_eq.
  - intros fuel. pattern (syncgsp fuel s).1, (syncgsp fuel s).2. apply wp_syncgsp.
    unfold syncgsp_try, syncgsp_init. wp_auto. cbv zeta. wp_auto.
    1,3: norm_log; simpl; intros Hin; decompose [or] Hin; simplify_eq;
      eexists; (split; [done|]); by simplify_map_eq.
    eapply wp_mono; [apply wp_and; [apply sync_loop_spec|apply sync_loop_running]|].
    cbn [world log result].
    intros [e0|[[]|]] s'; cbv beta iota.
    + intros ((polls & x & Hlog & Hpolls & Hx & Hres) & _).
      erewrite (events_since_log s)
        by (cbn [log]; rewrite Hlog, <- app_assoc; reflexivity).
      rewrite Hres. simpl. rewrite map_app, in_app_iff. simpl.
      intros [|[Hin|[Hin|]]]; try done; [by apply ev_exn_waited in Hin|].
      eexists; split; [done|].
      destruct Hx as [->|(last & -> & _)]; simplify_eq. by simplify_map_eq.
    + intros ((polls & last & Hlog & Hpolls & Hlast & Hres) & _). repeat wp_step.
      erewrite (events_since_log s)
        by (cbn [log]; rewrite Hlog, <- app_assoc; reflexivity).
      simpl. rewrite map_app, in_app_iff. simpl.
      intros [|[Hin|[|]]]; try done. by apply ev_exn_waited in Hin.
    + intros ((polls & last & tag & bh & Hlog & Hpolls & Htag & Hbh & Ht & Hres) & _).
      repeat wp_step.
      erewrite (events_since_log s)
        by (cbn [log]; rewrite Hlog, <- app_assoc; reflexivity).
      simpl. rewrite map_app, in_app_iff. simpl.
      intros [|[Hin|[|]]]; try done. by apply ev_exn_waited in Hin.
    + intros (_ & Hrun). destruct (Hrun eq_refl) as (evs & Hlog & Hok).
      repeat wp_step.
      erewrite (events_since_log s)
        by (cbn [log]; rewrite Hlog, <- app_assoc; reflexivity).
      simpl. intros [|Hin]; [done|].
      apply in_map_iff in Hin as (ev & Hev & Hin).
      rewrite List.Forall_forall in Hok. apply Hok in Hin. congruence.
Qed.

(** A guarded body that sets "error" whenever it ends normally with the
    flag still false, and never sets "errorType" itself.  [ok] tells the
    normal endings that count: all of them for a workflow, those that
    did not run out of fuel for [syncgsp]. *)
Lemma guarded_failure_shape {A} (ok : A -> bool) flag r0 (body : M W A) s :
  wp body
     (fun r s' =>
        match r with
        | inl _ => True
        | inr a =>
            ok a = true ->
            result s' !! "errorType" = None /\
            (result s' !! flag = Some (PBool false) -> is_Some (result s' !! "error"))
        end) (State (world s) (log s) r0) ->
  let o := (init r0;; try_except body) s in
  (forall a, o.1 = inr (Some a) -> ok a = true) ->
  let r := result o.2 in
  (r !! flag = Some (PBool false) -> is_Some (r !! "error")) /\
  (is_Some (r !! "errorType") <-> raises r0 body s).
Proof.
  unfold wp, raises, try_except, init, mbind, M_bind, mret, M_ret, set.
  cbn [fst snd world log result].
  destruct (body _) as [[e|a] s']; cbn [fst snd result].
  - intros _ _. split; [intros _|split; eauto]; by simplify_map_eq.
  - intros Hpost Hok. destruct Hpost as [Hty Herr]; [by apply Hok|].
    split; [done|]. rewrite Hty. split; [by intros []|by intros []].
Qed.

Lemma syncgsp_result fuel s r :
  (syncgsp fuel s).1 = Some r ->
  let o := (init syncgsp_init;; try_except (syncgsp_try fuel)) s in
  r = result o.2 /\ forall a, o.1 = inr (Some a) -> a = true.
Proof.
  unfold syncgsp. destruct ((init syncgsp_init;; try_except (syncgsp_try fuel)) s)
    as [[e|[[]|]] s']; cbn [fst snd]; intros; split; congruence.
Qed.

(** C6, as the code has it.  Every answer whose flag is false has an
    [error]; it has an [errorType] exactly when the guarded body ended in
    an exception.  The failures the workflows report themselves (name
    does not exist, character not found or not able to move, timeout)
    carry [error] alone. *)
Theorem failure_shape s :
  (forall ns name receiver,
     let r := (getname ns name receiver s).1 in
     (r !! "success" = Some (PBool false) -> is_Some (r !! "error")) /\
     (is_Some (r !! "errorType")
      <-> raises (getname_init ns name receiver) (getname_try ns name receiver) s)) /\
  (forall ns name mv,
     let r := (sendmove ns name mv s).1 in
     (r !! "success" = Some (PBool false) -> is_Some (r !! "error")) /\
     (is_Some (r !! "errorType")
      <-> raises (sendmove_init ns name) (sendmove_try ns name mv) s)) /\
  (forall cid action,
     let r := (validatecharacterstate cid action s).1 in
     (r !! "valid" = Some (PBool false) -> is_Some (r !! "error")) /\
     (is_Some (r !! "errorType")
      <-> raises (validate_init cid action) (validate_try cid action) s)) /\
  (forall fuel r,
     (syncgsp fuel s).1 = Some r ->
     (r !! "success" = Some (PBool false) -> is_Some (r !! "error")) /\
     (is_Some (r !! "errorType") <-> raises syncgsp_init (syncgsp_try fuel) s)).
Proof.
  split; [|split; [|split]].
  - intros ns name receiver.
    apply (guarded_failure_shape (fun _ => true) "success"); [|done].
    unfold getname_try, getname_init. wp_auto; by simplify_map_eq.
  - intros ns name mv.
    apply (guarded_failure_shape (fun _ => true) "success"); [|done].
    unfold sendmove_try, sendmove_init. cbv zeta. wp_auto; by simplify_map_eq.
  - intros cid action.
    apply (guarded_failure_shape (fun _ => true) "valid"); [|done].
    unfold validate_try, validate_init. wp_auto; by simplify_map_eq.
  - intros fuel r Hr. apply syncgsp_result in Hr as [-> Hok].
    apply (guarded_failure_shape id "success"); [|done].
    unfold syncgsp_try, syncgsp_init. wp_auto. cbv zeta. wp_auto. 1,3: done.
    eapply wp_mono; [apply sync_loop_spec|]. cbn [world log result].
    intros [e0|[[]|]] s'; cbv beta iota; [done| | |].
    + intros (polls & last & Hlog & Hpolls & Hlast & Hres). repeat wp_step.
      rewrite Hres. by simplify_map_eq.
    + intros (polls & last & tag & bh & Hlog & Hpolls & Htag & Hbh & Ht & Hres).
      repeat wp_step. rewrite Hres. by simplify_map_eq.
    + intros _. by repeat wp_step.
Qed.

End Workflows.

(** ** The workflows on the simulated world *)

Lemma sim_answer_clock {A} (c : Call A) (w : Sim.sim) :
  Sim.clock (Sim.answer c w).2 = Sim.clock w /\
  Sim.latency (Sim.answer c w).2 = Sim.latency w.
Proof.
  destruct c; cbn [Sim.answer];
    repeat lazymatch goal with
           | |- context [match ?x with _ => _ end] => destruct x
           end;
    by cbn.
Qed.

Lemma sim_clock_monotone : clock_monotone (W := Sim.sim).
Proof.
  intros A c w. cbn [time_time handle Sim.sim_world]. unfold Sim.sim_handle.
  assert (Hserved : forall w', (Sim.clock w' <= Sim.clock (Sim.served c w').2)%Q).
  { intros w'. unfold Sim.served.
    destruct (sim_answer_clock c w') as [Hc Hl].
    destruct (Sim.answer c w') as [r w'']. cbn [snd Sim.with_clock Sim.clock] in *.
    rewrite Hc.
    assert (0 <= inject_Z (Z.of_N (Sim.latency w'')))%Q
      by (change 0%Q with (inject_Z 0); rewrite <- Zle_Qle; lia).
    lra. }
  destruct (Sim.budget w) as [[|n]|]; [apply Qle_refl| |apply Hserved].
  apply (Hserved (Sim.with_budget (Some n) w)).
Qed.

Lemma sim_sleep_advances : sleep_advances (W := Sim.sim).
Proof. intros d w. apply Qle_refl. Qed.

Example json_dumps_compact :
  json_dumps (PDict [("x", PList [PInt 1; PNone; PBool true]); ("y", PInt (-3))])
  = String.concat "" ["{"; json_str "x"; ":[1,null,true],"; json_str "y"; ":-3}"].
Proof. vm_compute. reflexivity. Qed.

Example py_str_list : py_str (PList [PInt 1; PStr "a"; PNone]) = "[1, 'a', None]".
Proof. vm_compute. reflexivity. Qed.

Example no_speed :
  (validatecharacterstate (PInt 5) (PStr "move") (fresh Sim.w0)).1 !! "error"
  = Some (PStr "Character has no movement speed (speed=0)").
Proof. vm_compute. reflexivity. Qed.

Example register_then_transfer :
  let s1 := (getname "p" "bob" "0xB0B" (fresh Sim.w0)).2 in
  let r1 := (getname "p" "bob" "0xB0B" (fresh Sim.w0)).1 in
  let r2 := (getname "p" "bob" "0xC0C" s1).1 in
  r1 !! "action" = Some (PStr "registered") /\
  r2 !! "action" = Some (PStr "transferred") /\
  r2 !! "previousOwner" = Some (PStr "0xB0B") /\
  r2 !! "owner" = Some (PStr "0xC0C").
Proof. vm_compute. repeat split. Qed.

Example sync_on_second_poll :
  let r := (syncgsp 302 (fresh Sim.w0)).1 in
  answer_field r "success" = Some (PBool true) /\
  answer_field r "blockhash" = Some (PStr Sim.hash64) /\
  answer_field r "waitTime" = Some (PFloat (100 # 1000)).
Proof. vm_compute. repeat split. Qed.

Example sync_times_out :
  let r := (syncgsp 302 (fresh Sim.w_stuck)).1 in
  answer_field r "success" = Some (PBool false) /\
  answer_field r "error" = Some timeout_error /\
  answer_field r "lastState" = Some (PStr "catching-up").
Proof. vm_compute. repeat split. Qed.
Lemma sendmove_missing_name_witness :
  (handle (accounts_exists "p" "bob") (world (fresh Sim.w0))).1 = inr false /\
  (sendmove "p" "bob" Sim.long_move (fresh Sim.w0)).1 !! "error"
    = Some (PStr "name p/bob does not exist yet") /\
  events_since (fresh Sim.w0) (sendmove "p" "bob" Sim.long_move (fresh Sim.w0)).2
    = [Ev (accounts_exists "p" "bob") (inr false)].
Proof.
  assert (Hex : (handle (accounts_exists "p" "bob") (world (fresh Sim.w0))).1
                = inr false) by reflexivity.
  split; [exact Hex|].
  destruct (sendmove_missing_name "p" "bob" Sim.long_move (fresh Sim.w0) Hex)
    as (_ & Herr & Hev & _).
  split; [exact Herr | exact Hev].
Defined.

Lemma getname_outcome_witness :
  (handle (accounts_exists "p" "alice") (world (fresh Sim.w0))).1 = inr true /\
  Forall (fun ev => ev_faulted ev = false)
         (events_since (fresh Sim.w0) (getname "p" "alice" "0xA11CE" (fresh Sim.w0)).2) /\
  exists gas tokenId prev tx,
    events_since (fresh Sim.w0) (getname "p" "alice" "0xA11CE" (fresh Sim.w0)).2
    = ([Ev (accounts_exists "p" "alice") (inr true);
        Ev (accounts_tokenIdForName "p" "alice") (inr tokenId);
        Ev (accounts_ownerOf tokenId) (inr prev)]
       ++ gas ++
       [Ev (accounts_transferFrom prev "0xA11CE" tokenId prev) (inr tx);
        Ev (evm_mine None) (inr tt)])%list /\
    gas_ensured prev gas /\
    (getname "p" "alice" "0xA11CE" (fresh Sim.w0)).1
    = transferred_result "p" "alice" "0xA11CE" prev tokenId.
Proof.
  assert (Hex : (handle (accounts_exists "p" "alice") (world (fresh Sim.w0))).1
                = inr true) by reflexivity.
  assert (Hok : Forall (fun ev => ev_faulted ev = false)
                  (events_since (fresh Sim.w0)
                     (getname "p" "alice" "0xA11CE" (fresh Sim.w0)).2))
    by (vm_compute; repeat constructor).
  split; [exact Hex|]. split; [exact Hok|].
  exact (getname_outcome "p" "alice" "0xA11CE" (fresh Sim.w0) true Hex Hok).
Defined.


Lemma validate_other_action_witness :
  (handle gsp_getcharacters (world (fresh Sim.w0))).1 = inr (Sim.characters Sim.w0) /\
  snapshot_found (Sim.characters Sim.w0) (PInt 9) Sim.char9 /\
  PStr "attack" <> PStr "move" /\
  (validatecharacterstate (PInt 9) (PStr "attack") (fresh Sim.w0)).1
  = <["message" := PStr "Character can perform attack action"]>
      (<["valid" := PBool true]>
         (<["character" := character_summary Sim.char9]>
            (validate_init (PInt 9) (PStr "attack")))).
Proof.
  assert (Hchars : (handle gsp_getcharacters (world (fresh Sim.w0))).1
                   = inr (Sim.characters Sim.w0)) by reflexivity.
  assert (Hfound : snapshot_found (Sim.characters Sim.w0) (PInt 9) Sim.char9).
  { exists [("data", PList [Sim.char5; Sim.char7; Sim.char9])],
           [Sim.char5; Sim.char7], [].
    split; [reflexivity|]. split; [reflexivity|].
    split; [repeat constructor|]. split; reflexivity. }
  assert (Hact : PStr "attack" <> PStr "move") by discriminate.
  split; [exact Hchars|]. split; [exact Hfound|]. split; [exact Hact|].
  exact (validate_other_action (PInt 9) (PStr "attack") (fresh Sim.w0) _ _
           Hchars Hfound Hact).
Defined.

Lemma ensuregas_idempotent_witness :
  handle (get_balance "0xB0B") (world (fresh Sim.w0)) = (inr 0, Sim.w0) /\
  0 < minWei /\
  events_since (fresh Sim.w0) (ensuregas "0xB0B" (fresh Sim.w0)).2
  = [Ev (get_balance "0xB0B") (inr 0);
     Ev (anvil_setBalance "0xB0B" minWei) (inr tt)] /\
  filter (fun ev => ev_mutating ev = true)
         (events_since (ensuregas "0xB0B" (fresh Sim.w0)).2
            (ensuregas "0xB0B" (ensuregas "0xB0B" (fresh Sim.w0)).2).2) = [].
Proof.
  assert (Hbal : handle (get_balance "0xB0B") (world (fresh Sim.w0))
                 = (inr 0, Sim.w0)) by reflexivity.
  assert (Hlt : 0 < minWei) by reflexivity.
  split; [exact Hbal|]. split; [exact Hlt|].
  destruct (ensuregas_idempotent "0xB0B" (fresh Sim.w0) 0 Sim.w0 Hbal)
    as (_ & Hlow).
  destruct (Hlow Hlt) as (Hev & Hagain).
  split; [exact Hev|].
  apply Hagain; reflexivity.
Defined.

Lemma syncgsp_polls_witness :
  (handle get_block_latest_hash (world (fresh Sim.w0))).1
    = inr {| hex := Sim.head Sim.w0 |} /\
  String.length (strip_0x (Sim.head Sim.w0)) = 64%nat /\
  (302 <= 302)%nat /\
  exists r evs o,
    (syncgsp 302 (fresh Sim.w0)).1 = Some r /\
    r !! "targetBlock" = Some (PStr Sim.hash64) /\
    events_since (fresh Sim.w0) (syncgsp 302 (fresh Sim.w0)).2
    = Ev get_block_latest_hash (inr {| hex := Sim.head Sim.w0 |}) :: evs /\
    polling Sim.hash64 (Sim.clock Sim.w0) Sim.w0 evs o
            (world (syncgsp 302 (fresh Sim.w0)).2).
Proof.
  assert (Hh : (handle get_block_latest_hash (world (fresh Sim.w0))).1
               = inr {| hex := Sim.head Sim.w0 |}) by reflexivity.
  assert (Hlen : String.length (strip_0x (hex {| hex := Sim.head Sim.w0 |}))
                 = 64%nat) by reflexivity.
  assert (Hfuel : (302 <= 302)%nat) by lia.
  split; [exact Hh|]. split; [exact Hlen|]. split; [exact Hfuel|].
  destruct (syncgsp_polls sim_clock_monotone sim_sleep_advances
              (fresh Sim.w0) _ 302 Hh Hlen Hfuel)
    as (r & evs & o & Hr & _ & Htarget & Hev & Hpoll & _).
  exists r, evs, o.
  split; [exact Hr|]. split; [exact Htarget|]. split; [exact Hev | exact Hpoll].
Defined.

Lemma faults_become_results_witness :
  let e := Exn "ConnectionError" "connection refused" in
  (In (Some e)
      (map ev_exn (events_since (fresh Sim.w_down)
                     (getname "p" "bob" "0xB0B" (fresh Sim.w_down)).2)) /\
   reports "success" (getname "p" "bob" "0xB0B" (fresh Sim.w_down)).1 e) /\
  (In (Some e)
      (map ev_exn (events_since (fresh Sim.w_cut)
                     (syncgsp 302 (fresh Sim.w_cut)).2)) /\
   exists r, (syncgsp 302 (fresh Sim.w_cut)).1 = Some r /\ reports "success" r e).
Proof.
  cbv zeta.
  assert (Hin : In (Some (Exn "ConnectionError" "connection refused"))
                   (map ev_exn (events_since (fresh Sim.w_down)
                      (getname "p" "bob" "0xB0B" (fresh Sim.w_down)).2)))
    by (vm_compute; left; reflexivity).
  assert (Hcut : In (Some (Exn "ConnectionError" "connection refused"))
                    (map ev_exn (events_since (fresh Sim.w_cut)
                       (syncgsp 302 (fresh Sim.w_cut)).2)))
    by (vm_compute; do 3 right; left; reflexivity).
  split; (split; [eassumption|]).
  - exact (proj1 (faults_become_results (fresh Sim.w_down) _)
             "p" "bob" "0xB0B" Hin).
  - exact (proj2 (proj2 (proj2 (faults_become_results (fresh Sim.w_cut) _)))
             302%nat Hcut).
Defined.

(** C6 fails as stated: the answer of [sendmove] for a name that does
    not exist, and the timeout answer of [syncgsp], have [success] false
    and an [error], and no [errorType]. *)
Lemma failure_without_errorType :
  let r := (sendmove "p" "bob" (PStr "{}") (fresh Sim.w0)).1 in
  let t := (syncgsp 302 (fresh Sim.w_stuck)).1 in
  (r !! "success" = Some (PBool false) /\
   r !! "error" = Some (PStr "name p/bob does not exist yet") /\
   r !! "errorType" = None) /\
  (answer_field t "success" = Some (PBool false) /\
   answer_field t "error" = Some timeout_error /\
   answer_field t "errorType" = None).
Proof. vm_compute. repeat split. Qed.

Lemma failure_shape_witness :
  (sendmove "p" "bob" (PStr "{}") (fresh Sim.w0)).1 !! "success"
    = Some (PBool false) /\
  is_Some ((sendmove "p" "bob" (PStr "{}") (fresh Sim.w0)).1 !! "error").
Proof.
  assert (Hfail : (sendmove "p" "bob" (PStr "{}") (fresh Sim.w0)).1 !! "success"
                  = Some (PBool false)) by (vm_compute; reflexivity).
  split; [exact Hfail|].
  exact (proj1 (proj1 (proj2 (failure_shape (fresh Sim.w0))) "p" "bob" (PStr "{}"))
           Hfail).
Defined.

(** C7 fails as stated: with the head hash "0xabcd" the failed assertion
    is turned into an ordinary failure answer. *)
(** C4, counterexample.  Every call takes 12 seconds.  The one poll
    answered before the deadline, 24 seconds after the start, reports
    "catching-up"; the next one, answered 36.1 seconds after the start,
    is in sync, and [syncgsp] answers [success] true with a [waitTime] of
    36.1 seconds and no error. *)
Lemma success_after_deadline :
  let s := fresh Sim.w_late in
  let w1 := (handle get_block_latest_hash (world s)).2 in
  let w2 := (handle gsp_getnullstate w1).2 in
  let t := syncgsp 302 s in
  events_since s t.2
  = [Ev get_block_latest_hash (inr {| hex := Sim.head Sim.w0 |});
     Ev gsp_getnullstate (inr Sim.catching_up); Sleep (1 # 10);
     Ev gsp_getnullstate (inr Sim.synced_state)] /\
  (time_time w2 - time_time (world s) == 24)%Q /\
  ~ in_sync Sim.catching_up Sim.hash64 /\
  in_sync Sim.synced_state Sim.hash64 /\
  answer_field t.1 "targetBlock" = Some (PStr Sim.hash64) /\
  answer_field t.1 "success" = Some (PBool true) /\
  answer_field t.1 "waitTime" = Some (PFloat (36100 # 1000)) /\
  answer_field t.1 "error" = None.
Proof.
  cbv zeta.
  split; [by vm_compute|]. split; [by vm_compute|].
  split; [intros (d & [= <-] & Htag & _); by vm_compute in Htag|].
  split; [eexists; split; [reflexivity|]; by vm_compute|].
  vm_compute. repeat split.
Qed.

Lemma short_hash_is_reported :
  let t := (syncgsp 302 (fresh Sim.w_short)).1 in
  String.length (strip_0x (Sim.head Sim.w_short)) = 4%nat /\
  answer_field t "success" = Some (PBool false) /\
  answer_field t "error" = Some (PStr "") /\
  answer_field t "errorType" = Some (PStr "AssertionError").
Proof. vm_compute. repeat split. Qed.

Lemma syncgsp_bad_hash_witness :
  (handle get_block_latest_hash (world (fresh Sim.w_short))).1
    = inr {| hex := "0xabcd" |} /\
  String.length (strip_0x "0xabcd") <> 64%nat /\
  (syncgsp 5 (fresh Sim.w_short)).1
  = Some (<["errorType" := PStr "AssertionError"]>
            (<["error" := PStr ""]> syncgsp_init)) /\
  events_since (fresh Sim.w_short) (syncgsp 5 (fresh Sim.w_short)).2
  = [Ev get_block_latest_hash (inr {| hex := "0xabcd" |})].
Proof.
  assert (Hh : (handle get_block_latest_hash (world (fresh Sim.w_short))).1
               = inr {| hex := "0xabcd" |}) by reflexivity.
  assert (Hlen : String.length (strip_0x (hex {| hex := "0xabcd" |})) <> 64%nat)
    by (vm_compute; lia).
  split; [exact Hh|]. split; [exact Hlen|].
  exact (syncgsp_bad_hash (fresh Sim.w_short) _ 5 Hh Hlen).
Defined.


(** ** Further properties of the helpers and the workflows *)

(** As [wp_workflow_of], for a goal that may speak of the final state
    only. *)
Ltac wp_workflow_at f s :=
  let r := fresh "r" in let s' := fresh "s'" in let Hrun := fresh "Hrun" in
  destruct (f s) as [r s'] eqn:Hrun; cbn [fst snd];
  revert r s' Hrun;
  unfold getname, sendmove, validatecharacterstate;
  lazymatch goal with
  | |- forall r s', workflow ?r0 ?body ?s = (r, s') -> @?P r s' =>
      apply (wp_workflow r0 body P s)
  end.

Section Further.
Context {W : Type} `{World W}.
Implicit Types (s : state W) (e : exn) (evs : list event).

(** X1. [transfertoken] when no call fails: gas is ensured for the sender,
    the transfer is sent from the sender, and one block is mined, in
    this order. *)
Theorem transfertoken_order token sender receiver amount s :
  let evs := events_since s (transfertoken token sender receiver amount s).2 in
  Forall (fun ev => ev_faulted ev = false) evs ->
  (transfertoken token sender receiver amount s).1 = inr tt /\
  exists gas tx,
    gas_ensured sender gas /\
    evs = (gas ++ [Ev (erc20_transfer token receiver amount sender) (inr tx);
                   Ev (evm_mine None) (inr tt)])%list.
Proof.
  cbv zeta. to_wp (transfertoken token sender receiver amount) s.
  unfold transfertoken. wp_auto; norm_log; intros HF; no_fault HF.
  all: lazymatch goal with
       | Hr : match ?r with inl _ => true | inr _ => false end = false |- _ =>
           destruct r; [discriminate|]
       end.
  all: repeat match goal with u : unit |- _ => destruct u end.
  all: split; [done|]; pick_gas; eexists; split; [gas_ok|reflexivity].
Qed.

(** X2. The chain helpers catch nothing: the first call that raises ends
    [transfertoken] with that exception, and no call follows it -- no
    block is mined after a transfer that failed. *)
Theorem transfertoken_fault token sender receiver amount s :
  let r := (transfertoken token sender receiver amount s).1 in
  let evs := events_since s (transfertoken token sender receiver amount s).2 in
  fault_is_last evs /\
  (forall e, r = inl e <-> In (Some e) (map ev_exn evs)).
Proof.
  cbv zeta. to_wp (transfertoken token sender receiver amount) s.
  unfold transfertoken, fault_is_last. wp_auto; norm_log.
  all: try lazymatch goal with
           | |- context [Ev (evm_mine None) ?r] => is_var r; destruct r
           end.
  all: cbn [removelast map ev_exn last In].
  all: split; [repeat constructor|].
  all: intros e'; split; [intros [= ->]; tauto|].
  all: intros Hin; intuition congruence.
Qed.

(** X3. [tryRegisterName] answers [False] exactly when the registry says the
    name exists, and then it has made no other call; it answers [True]
    only after the registration was sent for the receiver and a block
    was mined on top of it, with an approval for the accounts contract
    of the largest amount before. *)
Theorem tryRegisterName_answer ns name receiver s :
  let r := (tryRegisterName ns name receiver s).1 in
  let evs := events_since s (tryRegisterName ns name receiver s).2 in
  (r = inr false <-> (handle (accounts_exists ns name) (world s)).1 = inr true) /\
  (r = inr false -> evs = [Ev (accounts_exists ns name) (inr true)]) /\
  (r = inr true ->
   exists gas tx tx',
     gas_ensured receiver gas /\
     evs = (Ev (accounts_exists ns name) (inr false) :: gas ++
            [Ev (wchi_approve accounts_address uint256_max receiver) (inr tx);
             Ev (evm_mine None) (inr tt);
             Ev (accounts_register ns name receiver) (inr tx');
             Ev (evm_mine None) (inr tt)])%list).
Proof.
  cbv zeta. to_wp (tryRegisterName ns name receiver) s.
  unfold tryRegisterName. wp_auto; norm_log.
  all: lazymatch goal with
       | Hc : handle (accounts_exists _ _) _ = _ |- _ => rewrite Hc; cbn [fst]
       end.
  all: repeat match goal with u : unit |- _ => destruct u end.
  all: split; [split; congruence|]; split; [congruence|]; try congruence.
  all: intros _; pick_gas; eexists _, _; split; [gas_ok|reflexivity].
Qed.

(** X4. The answer of [getname] is never half a success: [success] is true
    exactly when [action] is set, and then [action] is "registered" or
    "transferred" and [owner] is the receiver; a failure has neither
    [action] nor [owner]. *)
Theorem getname_success_iff_action ns name receiver s :
  let r := (getname ns name receiver s).1 in
  (r !! "success" = Some (PBool true) /\
   (r !! "action" = Some (PStr "registered") \/
    r !! "action" = Some (PStr "transferred")) /\
   r !! "owner" = Some (PStr receiver) /\
   r !! "error" = None)
  \/
  (r !! "success" = Some (PBool false) /\
   r !! "action" = None /\ r !! "owner" = None /\
   is_Some (r !! "error")).
Proof.
  cbv zeta. wp_workflow_of (getname ns name receiver).
  unfold getname_try, getname_init. wp_auto.
  all: simplify_map_eq; by eauto 10.
Qed.

(** X5. Every answer repeats what was asked, failures included: [getname]
    its namespace, name and receiver, [sendmove] its namespace and name,
    [validatecharacterstate] its character id and action. *)
Theorem answers_echo_request s :
  (forall ns name receiver,
     let r := (getname ns name receiver s).1 in
     r !! "ns" = Some (PStr ns) /\ r !! "name" = Some (PStr name) /\
     r !! "receiver" = Some (PStr receiver)) /\
  (forall ns name mv,
     let r := (sendmove ns name mv s).1 in
     r !! "ns" = Some (PStr ns) /\ r !! "name" = Some (PStr name)) /\
  (forall cid action,
     let r := (validatecharacterstate cid action s).1 in
     r !! "characterId" = Some cid /\ r !! "action" = Some action).
Proof.
  split; [|split].
  - intros ns name receiver. cbv zeta. wp_workflow_of (getname ns name receiver).
    unfold getname_try, getname_init. wp_auto; by simplify_map_eq.
  - intros ns name mv. cbv zeta. wp_workflow_of (sendmove ns name mv).
    unfold sendmove_try, sendmove_init. cbv zeta. wp_auto; by simplify_map_eq.
  - intros cid action. cbv zeta. wp_workflow_of (validatecharacterstate cid action).
    unfold validate_try, validate_init. wp_auto; by simplify_map_eq.
Qed.

(** X6. [sendmove] on an existing name when no call fails: token id and
    owner are read, gas is ensured for the owner, the move is sent from
    the owner with the largest nonce, no payment and the null address as
    receiver, and one block is mined.  The answer holds owner, token id
    and the hash of the transaction in hex. *)
Theorem sendmove_submits ns name mv s :
  (handle (accounts_exists ns name) (world s)).1 = inr true ->
  let r := (sendmove ns name mv s).1 in
  let evs := events_since s (sendmove ns name mv s).2 in
  Forall (fun ev => ev_faulted ev = false) evs ->
  exists gas tokenId owner tx,
    evs = ([Ev (accounts_exists ns name) (inr true);
            Ev (accounts_tokenIdForName ns name) (inr tokenId);
            Ev (accounts_ownerOf tokenId) (inr owner)]
           ++ gas ++
           [Ev (accounts_move ns name (move_string mv) uint256_max 0
                  null_address owner) (inr tx);
            Ev (evm_mine None) (inr tt)])%list /\
    gas_ensured owner gas /\
    r = <["message" := PStr "Move submitted successfully"]>
          (<["success" := PBool true]>
             (<["txHash" := PStr (hex tx)]>
                (<["tokenId" := PInt tokenId]>
                   (<["owner" := PStr owner]>
                      (<["moveData" := PStr (str_take 500 (move_string mv))]>
                         (sendmove_init ns name)))))).
Proof.
  intros Hex. cbv zeta. wp_workflow_of (sendmove ns name mv).
  unfold sendmove_try. cbv zeta. repeat wp_step.
  rewrite Hc in Hex. cbn [fst] in Hex. subst r. cbn [negb].
  wp_auto; norm_log; intros HF; no_fault HF.
  all: repeat match goal with u : unit |- _ => destruct u end.
  all: pick_gas; eexists _, _, _.
  all: split; [reflexivity | split; [gas_ok | reflexivity]].
Qed.

(** X7. [sendmove] leaves every name where it is: in no run does it
    register, transfer or approve. *)
Theorem sendmove_keeps_owner ns name mv s :
  Forall (fun ev => ev_changes_owner ev = false)
         (events_since s (sendmove ns name mv s).2).
Proof.
  wp_workflow_at (sendmove ns name mv) s.
  unfold sendmove_try. cbv zeta. wp_auto; norm_log; by repeat constructor.
Qed.



(** X9. A GSP answer that is not a dict has no [get]: the answer of
    [validatecharacterstate] reports the [AttributeError], for any id
    and action.  A "data" that cannot be iterated is a [TypeError]. *)
Theorem validate_malformed cid action s chars :
  (handle gsp_getcharacters (world s)).1 = inr chars ->
  let r := (validatecharacterstate cid action s).1 in
  (is_dict chars = false -> reports "valid" r (no_attribute chars "get")) /\
  (forall d v e,
     chars = PDict d -> assoc "data" d = Some v -> py_iter v = inl e ->
     reports "valid" r e /\ exn_type e = "TypeError").
Proof.
  intros Hchars. cbv zeta. split.
  - intros Hd. wp_workflow_of (validatecharacterstate cid action).
    unfold validate_try, reports. repeat wp_step.
    rewrite Hc in Hchars; cbn [fst] in Hchars; subst r.
    repeat wp_step. destruct chars; try done; cbn [py_get]; cbv beta iota.
    all: unfold validate_init; by simplify_map_eq.
  - intros d v e -> Hv Hiter. wp_workflow_of (validatecharacterstate cid action).
    unfold validate_try, reports. repeat wp_step.
    rewrite Hc in Hchars; cbn [fst] in Hchars; subst r.
    repeat wp_step. cbn [py_get]. rewrite Hv. repeat wp_step. rewrite Hiter.
    cbv beta iota. split; [unfold validate_init; by simplify_map_eq|].
    destruct v; try done; cbn in Hiter; by simplify_eq.
Qed.

(** X10. [validatecharacterstate] asks the GSP for its characters once and
    makes no other call, whatever the id, the action and the answer. *)
Theorem validate_reads_once cid action s :
  events_since s (validatecharacterstate cid action s).2
  = [Ev gsp_getcharacters (handle gsp_getcharacters (world s)).1].
Proof.
  wp_workflow_at (validatecharacterstate cid action) s.
  unfold validate_try. repeat wp_step. rewrite Hc. cbn [fst].
  wp_auto; by norm_log.
Qed.

(** X11. [validatecharacterstate] for "move" on a found entity that passes
    every check and is not under way: the answer is valid, with the
    entity's summary and the message, and has neither warning nor
    error. *)
Theorem validate_move_accepts cid s chars c q :
  (handle gsp_getcharacters (world s)).1 = inr chars ->
  snapshot_found chars cid c ->
  field c "inbuilding" PNone = PNone ->
  num_of (field c "speed" (PInt 0)) = Some q -> (0 < q)%Q ->
  truthy (field c "ongoing" PNone) = false ->
  not_moving c ->
  (validatecharacterstate cid (PStr "move") s).1
  = <["message" := PStr "Character can perform move action"]>
      (<["valid" := PBool true]>
         (<["character" := character_summary c]>
            (validate_init cid (PStr "move")))).
Proof.
  intros Hchars Hfound Hinb Hq Hlt Hidle Hmv.
  assert (Hd : exists cd, c = PDict cd).
  { destruct Hfound as (? & ? & ? & _ & _ & _ & Hd & _). destruct c; try done. eauto. }
  destruct Hd as [cd ->]. unfold not_moving, field in *. cbn [py_get] in *.
  apply (validate_found cid (PStr "move") s chars (PDict cd) (fun r => r = _));
    try done.
  intros w. cbn [py_eq]. rewrite bool_decide_eq_true_2 by done.
  unfold validate_move. repeat wp_step. cbn [py_get]. cbv beta iota.
  rewrite Hinb. cbn [is_none negb]. repeat wp_step. cbn [py_get]. cbv beta iota.
  repeat wp_step. unfold py_le. rewrite Hq. cbn [num_of]. cbv beta iota.
  rewrite (Qle_bool_false q (inject_Z 0)) by done.
  repeat wp_step. cbn [py_contains py_getitem]. cbv beta iota.
  destruct (assoc "ongoing" cd) as [o|] eqn:Ho;
    [rewrite bool_decide_eq_true_2 by eauto
    |rewrite bool_decide_eq_false_2 by (by intros [??])];
    repeat wp_step; rewrite ?Hidle; repeat wp_step.
  all: cbn [py_get]; cbv beta iota.
  all: destruct Hmv as [Hfalsy|(md & p & Hmd & Hp & Hle)];
    [rewrite Hfalsy; unfold validate_accept; by repeat wp_step|].
  all: rewrite Hmd; destruct md as [|kv md];
    [cbn [truthy]; unfold validate_accept; by repeat wp_step|].
  all: cbn [truthy]; repeat wp_step.
  all: assert (Hmv : assoc "movement" cd = Some (PDict (kv :: md)))
    by (by destruct (assoc "movement" cd) as [?|]; simplify_eq).
  all: rewrite Hmv; repeat wp_step; cbn [py_get]; repeat wp_step.
  all: unfold py_gt; rewrite Hp; cbn [num_of]; cbv beta iota.
  all: rewrite (proj2 (Qle_bool_iff p (inject_Z 0))) by done; cbn [negb].
  all: unfold validate_accept; by repeat wp_step.
Qed.

(** X12. A speed that is not a number cannot be compared with 0: for "move"
    on a found entity outside any building the answer is invalid and
    reports the [TypeError] of the comparison. *)
Theorem validate_move_bad_speed cid s chars c :
  (handle gsp_getcharacters (world s)).1 = inr chars ->
  snapshot_found chars cid c ->
  field c "inbuilding" PNone = PNone ->
  num_of (field c "speed" (PInt 0)) = None ->
  reports "valid" (validatecharacterstate cid (PStr "move") s).1
          (not_supported "<=" (field c "speed" (PInt 0)) (PInt 0)).
Proof.
  intros Hchars Hfound Hinb Hq.
  assert (Hd : exists cd, c = PDict cd).
  { destruct Hfound as (? & ? & ? & _ & _ & _ & Hd & _). destruct c; try done. eauto. }
  destruct Hd as [cd ->]. unfold field in *. cbn [py_get] in *.
  apply (validate_found cid (PStr "move") s chars (PDict cd)
           (fun r => reports "valid" r _)); try done.
  intros w. cbn [py_eq]. rewrite bool_decide_eq_true_2 by done.
  unfold validate_move. repeat wp_step. cbn [py_get]. cbv beta iota.
  rewrite Hinb. cbn [is_none negb]. repeat wp_step. cbn [py_get]. cbv beta iota.
  repeat wp_step. unfold py_le. rewrite Hq. cbv beta iota.
  unfold reports, validate_init. by simplify_map_eq.
Qed.

Lemma fault_is_last_cons ev evs :
  ev_faulted ev = false -> fault_is_last evs -> fault_is_last (ev :: evs).
Proof.
  unfold fault_is_last. intros Hev Hevs.
  destruct evs as [|ev' evs]; [constructor|].
  change (removelast (ev :: ev' :: evs)) with (ev :: removelast (ev' :: evs)).
  by constructor.
Qed.

(** The polling loop only reads and sleeps, and stops at the first call
    that raises -- also when it is cut short. *)
Lemma sync_loop_calls fuel blk t0 s :
  wp (sync_loop fuel blk t0)
     (fun _ s' =>
        exists evs, log s' = (log s ++ evs)%list /\
                    Forall (fun ev => ev_mutating ev = false) evs /\
                    fault_is_last evs) s.
Proof.
  revert s. induction fuel as [|fuel IH]; intros s.
  { cbn [sync_loop]. wp_step. exists []. rewrite app_nil_r.
    repeat split; constructor. }
  rewrite sync_loop_S. wp_auto.
  all: try (eexists [_]; split; [reflexivity|];
            split; [by repeat constructor|constructor]).
  eapply wp_mono; [apply IH|]. cbn [log].
  intros _ s' (evs & Hlog & Hread & Hlast).
  eexists (_ :: _ :: evs). split; [by rewrite Hlog, <- !app_assoc|].
  split; [by repeat constructor|].
  by repeat apply fault_is_last_cons.
Qed.

(** X13. [syncgsp] changes nothing on the chain: whatever happens and however
    long it runs, it makes no mutating call. *)
Theorem syncgsp_reads_only fuel s :
  Forall (fun ev => ev_mutating ev = false) (events_since s (syncgsp fuel s).2).
Proof.
  pattern (syncgsp fuel s).1, (syncgsp fuel s).2. apply wp_syncgsp.
  unfold syncgsp_try. wp_auto. cbv zeta. wp_auto.
  1,3: norm_log; by repeat constructor.
  eapply wp_mono; [apply sync_loop_calls|]. cbn [log].
  intros r s' (evs & Hlog & Hread & _).
  assert (Hev : forall w' r0, Forall (fun ev => ev_mutating ev = false)
            (events_since s (State (W := W) w' (log s') r0))).
  { intros w' r0. erewrite (events_since_log s)
      by (cbn [log]; rewrite Hlog, <- app_assoc; reflexivity).
    by constructor. }
  destruct r as [e|[[]|]]; cbv beta iota; repeat wp_step; try apply Hev.
  all: destruct s'; apply Hev.
Qed.

(** X14. In every workflow the first call that raises is the last call made:
    nothing is sent, mined or polled after a failure. *)
Theorem workflows_stop_at_fault s :
  (forall ns name receiver,
     fault_is_last (events_since s (getname ns name receiver s).2)) /\
  (forall ns name mv,
     fault_is_last (events_since s (sendmove ns name mv s).2)) /\
  (forall cid action,
     fault_is_last (events_since s (validatecharacterstate cid action s).2)) /\
  (forall fuel, fault_is_last (events_since s (syncgsp fuel s).2)).
Proof.
  split; [|split; [|split]].
  - intros ns name receiver. wp_workflow_at (getname ns name receiver) s.
    unfold getname_try, fault_is_last. wp_auto; norm_log; by repeat constructor.
  - intros ns name mv. wp_workflow_at (sendmove ns name mv) s.
    unfold sendmove_try, fault_is_last. cbv zeta.
    wp_auto; norm_log; by repeat constructor.
  - intros cid action. wp_workflow_at (validatecharacterstate cid action) s.
    unfold validate_try, fault_is_last. wp_auto; norm_log; by repeat constructor.
  - intros fuel. pattern (syncgsp fuel s).1, (syncgsp fuel s).2. apply wp_syncgsp.
    unfold syncgsp_try. wp_auto. cbv zeta. wp_auto.
    1,3: norm_log; unfold fault_is_last; by repeat constructor.
    eapply wp_mono; [apply sync_loop_calls|]. cbn [log].
    intros r s' (evs & Hlog & _ & Hlast).
    assert (Hev : forall w' r0,
              fault_is_last (events_since s (State (W := W) w' (log s') r0))).
    { intros w' r0. erewrite (events_since_log s)
        by (cbn [log]; rewrite Hlog, <- app_assoc; reflexivity).
      by apply fault_is_last_cons. }
    destruct r as [e|[[]|]]; cbv beta iota; repeat wp_step; try apply Hev.
    all: destruct s'; apply Hev.
Qed.

(** X15. The sync test comes before the deadline test: when the first poll
    finds the GSP in sync, [syncgsp] succeeds after that one poll and
    without sleeping, however much time has passed -- the deadline only
    ends a wait that has not succeeded.  [waitTime] is the time from
    the start to the end of the poll, rounded. *)
Theorem syncgsp_first_poll_synced s h w1 st w2 fuel :
  handle get_block_latest_hash (world s) = (inr h, w1) ->
  String.length (strip_0x (hex h)) = 64%nat ->
  handle gsp_getnullstate w1 = (inr st, w2) ->
  is_synced st (strip_0x (hex h)) = inr true ->
  (syncgsp (S fuel) s).1
  = Some (<["waitTime" :=
              PFloat (round3 (time_time w2 - time_time (world s)))]>
            (<["blockhash" := PStr (strip_0x (hex h))]>
               (<["success" := PBool true]>
                  (<["targetBlock" := PStr (strip_0x (hex h))]> syncgsp_init)))) /\
  events_since s (syncgsp (S fuel) s).2
  = [Ev get_block_latest_hash (inr h); Ev gsp_getnullstate (inr st)].
Proof.
  intros Hh Hlen Hst Hsync.
  pattern (syncgsp (S fuel) s).1, (syncgsp (S fuel) s).2. apply wp_syncgsp.
  unfold syncgsp_try. repeat wp_step.
  rewrite Hh in Hc. simplify_eq. cbv zeta.
  rewrite Hlen. cbn [Nat.eqb negb]. repeat wp_step.
  rewrite sync_loop_S. repeat wp_step.
  rewrite Hc in Hst. simplify_eq.
  repeat wp_step. rewrite Hsync. repeat wp_step. by norm_log.
Qed.

(** X16. A sync state that cannot be read -- no "state" key, or not a dict --
    is not polled again: [syncgsp] ends after that poll and reports the
    exception. *)
Theorem syncgsp_unreadable_state s h w1 st e fuel :
  handle get_block_latest_hash (world s) = (inr h, w1) ->
  String.length (strip_0x (hex h)) = 64%nat ->
  (handle gsp_getnullstate w1).1 = inr st ->
  is_synced st (strip_0x (hex h)) = inl e ->
  (syncgsp (S fuel) s).1
  = Some (<["errorType" := PStr (exn_type e)]>
            (<["error" := PStr (exn_msg e)]>
               (<["targetBlock" := PStr (strip_0x (hex h))]> syncgsp_init))) /\
  events_since s (syncgsp (S fuel) s).2
  = [Ev get_block_latest_hash (inr h); Ev gsp_getnullstate (inr st)].
Proof.
  intros Hh Hlen Hst Hsync.
  pattern (syncgsp (S fuel) s).1, (syncgsp (S fuel) s).2. apply wp_syncgsp.
  unfold syncgsp_try. repeat wp_step.
  rewrite Hh in Hc. simplify_eq. cbv zeta.
  rewrite Hlen. cbn [Nat.eqb negb]. repeat wp_step.
  rewrite sync_loop_S. repeat wp_step.
  rewrite Hc in Hst. cbn [fst snd] in *. subst r.
  repeat wp_step. rewrite Hsync. cbv beta iota. by norm_log.
Qed.

(** X17. Registration and transfer exclude each other in every run of
    [getname], failed ones included: once the registry has said that the
    name exists nothing is approved or registered, and once it has said
    that it does not nothing is transferred. *)
Theorem getname_paths_exclusive ns name receiver s (ex : bool) :
  (handle (accounts_exists ns name) (world s)).1 = inr ex ->
  let evs := events_since s (getname ns name receiver s).2 in
  if ex then Forall (fun ev => ev_registers ev = false) evs
  else Forall (fun ev => ev_transfers ev = false) evs.
Proof.
  intros Hex. cbv zeta. wp_workflow_at (getname ns name receiver) s.
  unfold getname_try. repeat wp_step.
  rewrite Hc in Hex. cbn [fst] in Hex. subst r.
  destruct ex; wp_auto; norm_log; by repeat constructor.
Qed.

Lemma str_take_all n (t : string) :
  (String.length t <= n)%nat -> str_take n t = t.
Proof.
  revert t; induction n as [|n IH]; intros [|c t] Hlen; try done;
    cbn [String.length] in Hlen; [lia|].
  rewrite str_take_cons, IH; [done|lia].
Qed.

(** X18. A move of at most 500 characters is reported whole: [moveData] is
    then the very string that is sent. *)
Theorem sendmove_short_move ns name mv s :
  (String.length (move_string mv) <= 500)%nat ->
  (sendmove ns name mv s).1 !! "moveData" = Some (PStr (move_string mv)).
Proof.
  intros Hlen. wp_workflow_of (sendmove ns name mv).
  unfold sendmove_try. cbv zeta. rewrite (str_take_all 500) by done.
  wp_auto; by simplify_map_eq.
Qed.

(** X19. The assertion guards the target: whenever the answer of [syncgsp]
    has a [targetBlock] it is 64 characters long, and a [blockhash] in
    the answer is that same string. *)
Theorem syncgsp_target_length fuel s b :
  answer_field (syncgsp fuel s).1 "targetBlock" = Some (PStr b) ->
  String.length b = 64%nat /\
  (forall b', answer_field (syncgsp fuel s).1 "blockhash" = Some b' -> b' = PStr b).
Proof.
  pattern (syncgsp fuel s).1, (syncgsp fuel s).2. apply wp_syncgsp.
  unfold syncgsp_try, syncgsp_init. wp_auto. cbv zeta. wp_auto.
  1,3: cbn [answer_field]; intros Hb; by simplify_map_eq.
  lazymatch goal with
  | Hlen : (String.length _ =? 64)%nat = true |- _ => apply Nat.eqb_eq in Hlen
  end.
  eapply wp_mono; [apply sync_loop_spec|]. cbn [world log result].
  intros [e0|[[]|]] s'; cbv beta iota.
  - intros (_ & _ & _ & _ & _ & Hres). cbn [answer_field]. rewrite Hres.
    intros Hb. simplify_map_eq.
    split; [done|]. intros b' Hb'. by simplify_map_eq.
  - intros (_ & _ & _ & _ & _ & Hres). repeat wp_step.
    cbn [answer_field result]. rewrite Hres. intros Hb. simplify_map_eq.
    split; [done|]. intros b' Hb'. by simplify_map_eq.
  - intros (polls & last & tag & bh & _ & _ & _ & _ & _ & Hres). repeat wp_step.
    cbn [answer_field]. rewrite Hres. intros Hb. simplify_map_eq.
    split; [done|]. intros b' Hb'. by simplify_map_eq.
  - intros _. by repeat wp_step.
Qed.

End Further.

Lemma transfertoken_order_witness :
  Forall (fun ev => ev_faulted ev = false)
         (events_since (fresh Sim.w0)
            (transfertoken "0x70CE" "0xA11CE" "0xB0B" 10 (fresh Sim.w0)).2) /\
  (transfertoken "0x70CE" "0xA11CE" "0xB0B" 10 (fresh Sim.w0)).1 = inr tt.
Proof.
  assert (Hok : Forall (fun ev => ev_faulted ev = false)
                  (events_since (fresh Sim.w0)
                     (transfertoken "0x70CE" "0xA11CE" "0xB0B" 10 (fresh Sim.w0)).2))
    by (vm_compute; repeat constructor).
  split; [exact Hok|].
  exact (proj1 (transfertoken_order "0x70CE" "0xA11CE" "0xB0B" 10 (fresh Sim.w0) Hok)).
Defined.

Lemma sendmove_submits_witness :
  (handle (accounts_exists "p" "alice") (world (fresh Sim.w0))).1 = inr true /\
  Forall (fun ev => ev_faulted ev = false)
         (events_since (fresh Sim.w0)
            (sendmove "p" "alice" Sim.long_move (fresh Sim.w0)).2) /\
  exists gas tokenId owner tx,
    events_since (fresh Sim.w0) (sendmove "p" "alice" Sim.long_move (fresh Sim.w0)).2
    = ([Ev (accounts_exists "p" "alice") (inr true);
        Ev (accounts_tokenIdForName "p" "alice") (inr tokenId);
        Ev (accounts_ownerOf tokenId) (inr owner)]
       ++ gas ++
       [Ev (accounts_move "p" "alice" (move_string Sim.long_move) uint256_max 0
              null_address owner) (inr tx);
        Ev (evm_mine None) (inr tt)])%list /\
    gas_ensured owner gas /\
    (sendmove "p" "alice" Sim.long_move (fresh Sim.w0)).1
    = <["message" := PStr "Move submitted successfully"]>
        (<["success" := PBool true]>
           (<["txHash" := PStr (hex tx)]>
              (<["tokenId" := PInt tokenId]>
                 (<["owner" := PStr owner]>
                    (<["moveData" := PStr (str_take 500 (move_string Sim.long_move))]>
                       (sendmove_init "p" "alice")))))).
Proof.
  assert (Hex : (handle (accounts_exists "p" "alice") (world (fresh Sim.w0))).1
                = inr true) by reflexivity.
  assert (Hok : Forall (fun ev => ev_faulted ev = false)
                  (events_since (fresh Sim.w0)
                     (sendmove "p" "alice" Sim.long_move (fresh Sim.w0)).2))
    by (vm_compute; repeat constructor).
  split; [exact Hex|]. split; [exact Hok|].
  exact (sendmove_submits "p" "alice" Sim.long_move (fresh Sim.w0) Hex Hok).
Defined.


Lemma validate_malformed_witness :
  (handle gsp_getcharacters (world (fresh Sim.w_list))).1 = inr (PList []) /\
  reports "valid" (validatecharacterstate (PInt 5) (PStr "move") (fresh Sim.w_list)).1
          (Exn "AttributeError" "'list' object has no attribute 'get'").
Proof.
  assert (Hchars : (handle gsp_getcharacters (world (fresh Sim.w_list))).1
                   = inr (PList [])) by reflexivity.
  split; [exact Hchars|].
  exact (proj1 (validate_malformed (PInt 5) (PStr "move") (fresh Sim.w_list) _ Hchars)
           eq_refl).
Defined.

Lemma validate_move_accepts_witness :
  (handle gsp_getcharacters (world (fresh Sim.w_more))).1
    = inr (Sim.characters Sim.w_more) /\
  snapshot_found (Sim.characters Sim.w_more) (PInt 3) Sim.char3 /\
  not_moving Sim.char3 /\
  (validatecharacterstate (PInt 3) (PStr "move") (fresh Sim.w_more)).1
  = <["message" := PStr "Character can perform move action"]>
      (<["valid" := PBool true]>
         (<["character" := character_summary Sim.char3]>
            (validate_init (PInt 3) (PStr "move")))).
Proof.
  assert (Hchars : (handle gsp_getcharacters (world (fresh Sim.w_more))).1
                   = inr (Sim.characters Sim.w_more)) by reflexivity.
  assert (Hfound : snapshot_found (Sim.characters Sim.w_more) (PInt 3) Sim.char3).
  { exists [("data", PList [Sim.char3; Sim.char4])], [], [Sim.char4].
    split; [reflexivity|]. split; [reflexivity|].
    split; [constructor|]. split; reflexivity. }
  assert (Hstill : not_moving Sim.char3).
  { right. exists [("partialstep", PInt 0)], (inject_Z 0).
    split; [reflexivity|]. split; [reflexivity|]. apply Qle_refl. }
  assert (Hq : (0 < inject_Z 2)%Q) by reflexivity.
  split; [exact Hchars|]. split; [exact Hfound|]. split; [exact Hstill|].
  exact (validate_move_accepts (PInt 3) (fresh Sim.w_more) _ _ (inject_Z 2)
           Hchars Hfound eq_refl eq_refl Hq eq_refl Hstill).
Defined.

Lemma validate_move_bad_speed_witness :
  (handle gsp_getcharacters (world (fresh Sim.w_more))).1
    = inr (Sim.characters Sim.w_more) /\
  snapshot_found (Sim.characters Sim.w_more) (PInt 4) Sim.char4 /\
  reports "valid" (validatecharacterstate (PInt 4) (PStr "move") (fresh Sim.w_more)).1
          (Exn "TypeError" "'<=' not supported between instances of 'str' and 'int'").
Proof.
  assert (Hchars : (handle gsp_getcharacters (world (fresh Sim.w_more))).1
                   = inr (Sim.characters Sim.w_more)) by reflexivity.
  assert (Hfound : snapshot_found (Sim.characters Sim.w_more) (PInt 4) Sim.char4).
  { exists [("data", PList [Sim.char3; Sim.char4])], [Sim.char3], [].
    split; [reflexivity|]. split; [reflexivity|].
    split; [repeat constructor|]. split; reflexivity. }
  split; [exact Hchars|]. split; [exact Hfound|].
  exact (validate_move_bad_speed (PInt 4) (fresh Sim.w_more) _ _
           Hchars Hfound eq_refl eq_refl).
Defined.

Lemma syncgsp_first_poll_synced_witness :
  String.length (strip_0x (Sim.head Sim.w_slow)) = 64%nat /\
  is_synced Sim.synced_state (strip_0x (Sim.head Sim.w_slow)) = inr true /\
  answer_field (syncgsp 1 (fresh Sim.w_slow)).1 "success" = Some (PBool true) /\
  answer_field (syncgsp 1 (fresh Sim.w_slow)).1 "waitTime"
    = Some (PFloat (round3 120)).
Proof.
  assert (Hh : handle get_block_latest_hash (world (fresh Sim.w_slow))
               = (inr {| hex := Sim.head Sim.w_slow |},
                  Sim.with_clock 1700000060 Sim.w_slow)) by reflexivity.
  assert (Hlen : String.length (strip_0x (hex {| hex := Sim.head Sim.w_slow |}))
                 = 64%nat) by reflexivity.
  assert (Hst : handle gsp_getnullstate (Sim.with_clock 1700000060 Sim.w_slow)
                = (inr Sim.synced_state, Sim.with_clock 1700000120 Sim.w_slow))
    by reflexivity.
  assert (Hsync : is_synced Sim.synced_state
                    (strip_0x (hex {| hex := Sim.head Sim.w_slow |})) = inr true)
    by reflexivity.
  split; [exact Hlen|]. split; [exact Hsync|].
  destruct (syncgsp_first_poll_synced (fresh Sim.w_slow) _ _ _ _ 0 Hh Hlen Hst Hsync)
    as [Hr _].
  rewrite Hr. split; reflexivity.
Defined.

Lemma syncgsp_unreadable_state_witness :
  String.length (strip_0x (Sim.head Sim.w_nokey)) = 64%nat /\
  is_synced (PDict [("blockhash", PStr Sim.hash64)]) (strip_0x (Sim.head Sim.w_nokey))
    = inl (Exn "KeyError" "'state'") /\
  answer_field (syncgsp 1 (fresh Sim.w_nokey)).1 "errorType" = Some (PStr "KeyError") /\
  answer_field (syncgsp 1 (fresh Sim.w_nokey)).1 "error" = Some (PStr "'state'").
Proof.
  assert (Hh : handle get_block_latest_hash (world (fresh Sim.w_nokey))
               = (inr {| hex := Sim.head Sim.w_nokey |},
                  Sim.with_clock 1700000000 Sim.w_nokey)) by reflexivity.
  assert (Hlen : String.length (strip_0x (hex {| hex := Sim.head Sim.w_nokey |}))
                 = 64%nat) by reflexivity.
  assert (Hst : (handle gsp_getnullstate (Sim.with_clock 1700000000 Sim.w_nokey)).1
                = inr (PDict [("blockhash", PStr Sim.hash64)])) by reflexivity.
  assert (Hsync : is_synced (PDict [("blockhash", PStr Sim.hash64)])
                    (strip_0x (hex {| hex := Sim.head Sim.w_nokey |}))
                  = inl (Exn "KeyError" "'state'")) by reflexivity.
  split; [exact Hlen|]. split; [exact Hsync|].
  destruct (syncgsp_unreadable_state (fresh Sim.w_nokey) _ _ _ _ 0 Hh Hlen Hst Hsync)
    as [Hr _].
  rewrite Hr. split; reflexivity.
Defined.

Lemma getname_paths_exclusive_witness :
  (handle (accounts_exists "p" "alice") (world (fresh Sim.w_drops))).1 = inr true /\
  (getname "p" "alice" "0xB0B" (fresh Sim.w_drops)).1 !! "success"
    = Some (PBool false) /\
  Forall (fun ev => ev_registers ev = false)
         (events_since (fresh Sim.w_drops)
            (getname "p" "alice" "0xB0B" (fresh Sim.w_drops)).2).
Proof.
  assert (Hex : (handle (accounts_exists "p" "alice") (world (fresh Sim.w_drops))).1
                = inr true) by reflexivity.
  split; [exact Hex|]. split; [vm_compute; reflexivity|].
  exact (getname_paths_exclusive "p" "alice" "0xB0B" (fresh Sim.w_drops) true Hex).
Defined.

Lemma sendmove_short_move_witness :
  (String.length (move_string (PDict [("wp", PList [PInt 1; PInt 2])])) <= 500)%nat /\
  (sendmove "p" "alice" (PDict [("wp", PList [PInt 1; PInt 2])]) (fresh Sim.w0)).1
    !! "moveData"
  = Some (PStr (move_string (PDict [("wp", PList [PInt 1; PInt 2])]))).
Proof.
  assert (Hlen : (String.length (move_string (PDict [("wp", PList [PInt 1; PInt 2])]))
                  <= 500)%nat) by (vm_compute; lia).
  split; [exact Hlen|].
  exact (sendmove_short_move "p" "alice" _ (fresh Sim.w0) Hlen).
Defined.

Lemma syncgsp_target_length_witness :
  answer_field (syncgsp 302 (fresh Sim.w0)).1 "targetBlock"
    = Some (PStr Sim.hash64) /\
  String.length Sim.hash64 = 64%nat.
Proof.
  assert (Ht : answer_field (syncgsp 302 (fresh Sim.w0)).1 "targetBlock"
               = Some (PStr Sim.hash64)) by (vm_compute; reflexivity).
  split; [exact Ht|].
  exact (proj1 (syncgsp_target_length 302 (fresh Sim.w0) _ Ht)).
Defined.
